(** * OpenF: the 24-bit BMP codec of [openf.h]

    A shallow embedding of [openf_load_bmp] and [openf_save_bmp] and of
    the structures they use, followed by the properties of the codec.

    Conventions of the embedding.
    - A byte is a [Byte.byte]; a buffer or a file content is a [list byte].
    - [unsigned int] and [int] are 32 bits wide, [size_t] is 64 bits wide
      (LP64).  Integers are values of [Z]; every arithmetic operation of the
      source is followed by the reduction of its C type ([u32], [i32],
      [usz]).
    - The packed header structures are read from and written to the file
      as raw memory of a little-endian host.
    - An access outside a buffer has no defined behaviour in C: the
      embedding stops with [Undef] there.
    - The file system is a finite map from paths to contents.  Resource
      exhaustion of the host ([malloc] returning NULL, a full disk, a
      failing [fclose]) is not modelled: allocation and writing succeed. *)

From Stdlib Require Import ZArith Lia.
From Stdlib Require Import Strings.Byte.
From stdpp Require Import base option list gmap strings.

Local Open Scope Z_scope.

(** ** Error codes *)

Inductive OpenF_Error : Set :=
| OPENF_OK
| OPENF_ERR_NULL_ARG
| OPENF_ERR_OPEN_FAILED
| OPENF_ERR_SEEK_FAILED
| OPENF_ERR_READ_FAILED
| OPENF_ERR_WRITE_FAILED
| OPENF_ERR_MEM_ALLOC
| OPENF_ERR_INVALID_FORMAT
| OPENF_ERR_UNSUPPORTED
| OPENF_ERR_CLOSE_FAILED
| OPENF_ERR_FILE_EXISTS
| OPENF_ERR_FILE_NOT_FOUND
| OPENF_ERR_GENERAL_FAILURE.

(** ** Outcome of a call

    [Ret a]: the function ran to its final [return OPENF_OK] and produced
    [a]; [Fail e]: it returned the error code [e] early; [Undef]: it
    reached an operation that C leaves undefined. *)

Inductive exec (A : Type) : Type :=
| Ret (a : A)
| Fail (e : OpenF_Error)
| Undef.

Arguments Ret {A} a.
Arguments Fail {A} e.
Arguments Undef {A}.

Definition exec_bind {A B : Type} (m : exec A) (k : A -> exec B) : exec B :=
  match m with
  | Ret a => k a
  | Fail e => Fail e
  | Undef => Undef
  end.

Notation "'do' x <- m ; k" := (exec_bind m (fun x => k))
  (at level 10, x name, m at level 100, k at level 200,
   format "'[v' 'do'  x  <-  m ; '/' k ']'").

(** ** Machine integers *)

(** Conversion to [unsigned int]. *)
Definition u32 (z : Z) : Z := z mod 2 ^ 32.

(** Conversion to [int] (two's complement). *)
Definition i32 (z : Z) : Z := (z + 2 ^ 31) mod 2 ^ 32 - 2 ^ 31.

(** Conversion to [size_t]. *)
Definition usz (z : Z) : Z := z mod 2 ^ 64.

Definition add32 (a b : Z) : Z := u32 (a + b).
Definition sub32 (a b : Z) : Z := u32 (a - b).
Definition mul32 (a b : Z) : Z := u32 (a * b).
Definition div32 (a b : Z) : Z := u32 (a / b).

(** Negation of an [int].  C leaves [-INT_MIN] undefined; the embedding
    takes the two's complement result that compilers produce. *)
Definition neg_i32 (a : Z) : Z := i32 (- a).

Definition addsz (a b : Z) : Z := usz (a + b).
Definition mulsz (a b : Z) : Z := usz (a * b).

(** ** Bytes and little-endian fields *)

Definition u8 (b : byte) : Z := Z.of_N (Byte.to_N b).

Definition byte_of (z : Z) : byte :=
  match Byte.of_N (Z.to_N (z mod 256)) with
  | Some b => b
  | None => x00
  end.

(** Value of a field stored least significant byte first. *)
Fixpoint le_decode (bs : list byte) : Z :=
  match bs with
  | [] => 0
  | b :: bs' => u8 b + 256 * le_decode bs'
  end.

(** The [n] bytes of the two's complement representation of [z], least
    significant first. *)
Fixpoint le_encode (n : nat) (z : Z) : list byte :=
  match n with
  | O => []
  | S n' => byte_of z :: le_encode n' (z / 256)
  end.

Definition get_u16 (raw : list byte) (off : nat) : Z :=
  le_decode (take 2 (drop off raw)).
Definition get_u32 (raw : list byte) (off : nat) : Z :=
  le_decode (take 4 (drop off raw)).
Definition get_i32 (raw : list byte) (off : nat) : Z :=
  i32 (get_u32 raw off).

(** ** The BMP headers ([#pragma pack(push,1)]) *)

Record OpenF_BMPFileHeader : Set := {
  bfType : Z;       (* unsigned short, 'BM' *)
  bfSize : Z;       (* unsigned int *)
  bfReserved1 : Z;  (* unsigned short *)
  bfReserved2 : Z;  (* unsigned short *)
  bfOffBits : Z     (* unsigned int *)
}.

Record OpenF_BMPInfoHeader : Set := {
  biSize : Z;           (* unsigned int *)
  biWidth : Z;          (* int *)
  biHeight : Z;         (* int *)
  biPlanes : Z;         (* unsigned short *)
  biBitCount : Z;       (* unsigned short *)
  biCompression : Z;    (* unsigned int *)
  biSizeImage : Z;      (* unsigned int *)
  biXPelsPerMeter : Z;  (* int *)
  biYPelsPerMeter : Z;  (* int *)
  biClrUsed : Z;        (* unsigned int *)
  biClrImportant : Z    (* unsigned int *)
}.

(** [sizeof(OpenF_BMPFileHeader)] and [sizeof(OpenF_BMPInfoHeader)]. *)
Definition sizeof_file_header : nat := 14.
Definition sizeof_info_header : nat := 40.

(** The structure held by 14 bytes of memory. *)
Definition read_file_header (raw : list byte) : OpenF_BMPFileHeader :=
  {| bfType := get_u16 raw 0;
     bfSize := get_u32 raw 2;
     bfReserved1 := get_u16 raw 6;
     bfReserved2 := get_u16 raw 8;
     bfOffBits := get_u32 raw 10 |}.

(** The structure held by 40 bytes of memory. *)
Definition read_info_header (raw : list byte) : OpenF_BMPInfoHeader :=
  {| biSize := get_u32 raw 0;
     biWidth := get_i32 raw 4;
     biHeight := get_i32 raw 8;
     biPlanes := get_u16 raw 12;
     biBitCount := get_u16 raw 14;
     biCompression := get_u32 raw 16;
     biSizeImage := get_u32 raw 20;
     biXPelsPerMeter := get_i32 raw 24;
     biYPelsPerMeter := get_i32 raw 28;
     biClrUsed := get_u32 raw 32;
     biClrImportant := get_u32 raw 36 |}.

(** The memory of a structure, as [fwrite] sends it to the file. *)
Definition write_file_header (h : OpenF_BMPFileHeader) : list byte :=
  le_encode 2 (bfType h) ++ le_encode 4 (bfSize h) ++
  le_encode 2 (bfReserved1 h) ++ le_encode 2 (bfReserved2 h) ++
  le_encode 4 (bfOffBits h).

Definition write_info_header (h : OpenF_BMPInfoHeader) : list byte :=
  le_encode 4 (biSize h) ++ le_encode 4 (biWidth h) ++
  le_encode 4 (biHeight h) ++ le_encode 2 (biPlanes h) ++
  le_encode 2 (biBitCount h) ++ le_encode 4 (biCompression h) ++
  le_encode 4 (biSizeImage h) ++ le_encode 4 (biXPelsPerMeter h) ++
  le_encode 4 (biYPelsPerMeter h) ++ le_encode 4 (biClrUsed h) ++
  le_encode 4 (biClrImportant h).

(** ** The image *)

Record OpenF_Image : Type := {
  width : Z;                    (* unsigned int *)
  height : Z;                   (* unsigned int *)
  pixels : option (list byte)   (* RGB 24-bit, row-major; None is NULL *)
}.

(** ** Buffers *)

(** [buf[i]] as an rvalue. *)
Definition load8 (buf : list byte) (i : Z) : exec byte :=
  match buf !! Z.to_nat i with
  | Some b => Ret b
  | None => Undef
  end.

(** [buf[i] = b]. *)
Definition store8 (buf : list byte) (i : Z) (b : byte) : exec (list byte) :=
  if decide (Z.to_nat i < length buf)%nat
  then Ret (<[Z.to_nat i := b]> buf)
  else Undef.

(** [malloc(n)]: the content of fresh memory is indeterminate; the
    functions below overwrite it before they read it. *)
Definition malloc (n : Z) : list byte := replicate (Z.to_nat n) x00.

(** ** Files *)

Record FILE : Type := {
  f_data : list byte;  (* content of the file *)
  f_pos : nat          (* file position indicator *)
}.

(** [fopen(path, "rb")]. *)
Definition fopen_rb (fs : gmap string (list byte)) (path : string)
  : option FILE :=
  match fs !! path with
  | Some data => Some {| f_data := data; f_pos := 0 |}
  | None => None
  end.

(** [fread] of at most [n] bytes: the bytes obtained, and the stream
    after them. *)
Definition fread (n : nat) (f : FILE) : list byte * FILE :=
  let chunk := take n (drop (f_pos f) (f_data f)) in
  (chunk, {| f_data := f_data f; f_pos := (f_pos f + length chunk)%nat |}).

(** [fseek(f, off, SEEK_SET)]: any position of a regular file can be
    selected, also one after its end. *)
Definition fseek_set (off : Z) (f : FILE) : FILE :=
  {| f_data := f_data f; f_pos := Z.to_nat off |}.

(** ** [openf_load_bmp] *)

(** The inner loop of the decoder, [for (x = 0; x < width; x++)], with [n]
    iterations left: the pixel [x] of the stored row goes to the pixel [x]
    of the row [target_y], BGR becoming RGB. *)
Fixpoint load_row_loop (n : nat) (x : Z) (width target_y : Z)
    (row_data pixels : list byte) : exec (list byte) :=
  match n with
  | O => Ret pixels
  | S n' =>
    let dst_idx := mul32 (add32 (mul32 target_y width) x) 3 in
    let src_idx := mul32 x 3 in
    do b <- load8 row_data (add32 src_idx 2);
    do pixels <- store8 pixels (add32 dst_idx 0) b;
    do b <- load8 row_data (add32 src_idx 1);
    do pixels <- store8 pixels (add32 dst_idx 1) b;
    do b <- load8 row_data (add32 src_idx 0);
    do pixels <- store8 pixels (add32 dst_idx 2) b;
    load_row_loop n' (add32 x 1) width target_y row_data pixels
  end.

(** The row of the canonical buffer that receives the stored row [y]. *)
Definition load_target_y (top_down : bool) (height y : Z) : Z :=
  if top_down then y else sub32 (sub32 height 1) y.

(** The outer loop of the decoder, [for (y = 0; y < height; y++)], with
    [n] iterations left. *)
Fixpoint load_rows_loop (n : nat) (y : Z) (width height row_size : Z)
    (top_down : bool) (f : FILE) (pixels : list byte) : exec (list byte) :=
  match n with
  | O => Ret pixels
  | S n' =>
    let '(row_data, f) := fread (Z.to_nat row_size) f in
    if decide (Z.of_nat (length row_data) ≠ row_size)
    then Fail OPENF_ERR_READ_FAILED
    else
      let target_y := load_target_y top_down height y in
      do pixels <- load_row_loop (Z.to_nat width) 0 width target_y
                     row_data pixels;
      load_rows_loop n' (add32 y 1) width height row_size top_down f pixels
  end.

(** The row stride, [((width * 3 + 3) / 4) * 4] on [unsigned int]. *)
Definition row_size_of (width : Z) : Z :=
  mul32 (div32 (add32 (mul32 width 3) 3) 4) 4.

(** The body of [openf_load_bmp] once the file is open. *)
Definition load_bmp_stream (f : FILE) : exec OpenF_Image :=
  let '(raw, f) := fread sizeof_file_header f in
  if decide (length raw ≠ sizeof_file_header)
  then Fail OPENF_ERR_READ_FAILED
  else
    let file_header := read_file_header raw in
    if decide (bfType file_header ≠ 0x4D42)
    then Fail OPENF_ERR_INVALID_FORMAT
    else
      let '(raw, f) := fread sizeof_info_header f in
      if decide (length raw ≠ sizeof_info_header)
      then Fail OPENF_ERR_READ_FAILED
      else
        let info_header := read_info_header raw in
        if decide (biBitCount info_header ≠ 24 ∨
                   biCompression info_header ≠ 0)
        then Fail OPENF_ERR_UNSUPPORTED
        else if decide (biWidth info_header ≤ 0 ∨ biHeight info_header = 0)
        then Fail OPENF_ERR_INVALID_FORMAT
        else
          let width := u32 (biWidth info_header) in
          let height :=
            u32 (if decide (biHeight info_header < 0)
                 then neg_i32 (biHeight info_header)
                 else biHeight info_header) in
          let row_size := usz (row_size_of width) in
          (* [pixel_data_size = row_size * height] is computed by the
             source and used nowhere *)
          let pixels := malloc (usz (mul32 (mul32 width height) 3)) in
          let f := fseek_set (bfOffBits file_header) f in
          let top_down := bool_decide (biHeight info_header < 0) in
          do pixels <- load_rows_loop (Z.to_nat height) 0 width height
                         row_size top_down f pixels;
          Ret {| width := width; height := height; pixels := Some pixels |}.

(** [openf_load_bmp(path, out_image)]; [None] is a NULL [path],
    [out_image] tells whether the result pointer is not NULL.  [Ret img]
    stands for the return of [OPENF_OK] with [*out_image] set to [img]. *)
Definition openf_load_bmp (fs : gmap string (list byte))
    (path : option string) (out_image : bool) : exec OpenF_Image :=
  match path, out_image with
  | Some path, true =>
    match fopen_rb fs path with
    | None => Fail OPENF_ERR_FILE_NOT_FOUND
    | Some f => load_bmp_stream f
    end
  | _, _ => Fail OPENF_ERR_NULL_ARG
  end.

(** ** [openf_save_bmp] *)

(** The inner loop of the encoder, [for (x = 0; x < width; x++)], with [n]
    iterations left: the pixel [x] of the row [src_y] goes to the pixel [x]
    of the row buffer, RGB becoming BGR. *)
Fixpoint save_row_loop (n : nat) (x : Z) (width src_y : Z)
    (pixels row_data : list byte) : exec (list byte) :=
  match n with
  | O => Ret row_data
  | S n' =>
    let dst_idx := usz (mul32 x 3) in
    let src_idx := usz (mul32 (add32 (mul32 src_y width) x) 3) in
    do b <- load8 pixels (addsz src_idx 2);
    do row_data <- store8 row_data (addsz dst_idx 0) b;
    do b <- load8 pixels (addsz src_idx 1);
    do row_data <- store8 row_data (addsz dst_idx 1) b;
    do b <- load8 pixels (addsz src_idx 0);
    do row_data <- store8 row_data (addsz dst_idx 2) b;
    save_row_loop n' (add32 x 1) width src_y pixels row_data
  end.

(** The outer loop of the encoder, [for (y = 0; y < height; y++)], with
    [n] iterations left; [out] is what the file holds so far. *)
Fixpoint save_rows_loop (n : nat) (y : Z) (width height row_size : Z)
    (pixels out : list byte) : exec (list byte) :=
  match n with
  | O => Ret out
  | S n' =>
    let row_data := replicate (Z.to_nat row_size) x00 in  (* memset *)
    let src_y := sub32 (sub32 height 1) y in
    do row_data <- save_row_loop (Z.to_nat width) 0 width src_y
                     pixels row_data;
    save_rows_loop n' (add32 y 1) width height row_size pixels
      (out ++ row_data)
  end.

(** The two headers the encoder builds for an image. *)
Definition save_file_header (width height : Z) : OpenF_BMPFileHeader :=
  let row_size := usz (row_size_of width) in
  let pixel_data_size := mulsz row_size height in
  let file_size :=
    addsz (addsz (Z.of_nat sizeof_file_header) (Z.of_nat sizeof_info_header))
          pixel_data_size in
  {| bfType := 0x4D42;
     bfSize := u32 file_size;
     bfReserved1 := 0;
     bfReserved2 := 0;
     bfOffBits :=
       u32 (addsz (Z.of_nat sizeof_file_header)
                  (Z.of_nat sizeof_info_header)) |}.

Definition save_info_header (width height : Z) : OpenF_BMPInfoHeader :=
  let row_size := usz (row_size_of width) in
  let pixel_data_size := mulsz row_size height in
  {| biSize := u32 (Z.of_nat sizeof_info_header);
     biWidth := i32 width;
     biHeight := i32 height;
     biPlanes := 1;
     biBitCount := 24;
     biCompression := 0;
     biSizeImage := u32 pixel_data_size;
     biXPelsPerMeter := 0;
     biYPelsPerMeter := 0;
     biClrUsed := 0;
     biClrImportant := 0 |}.

(** The bytes [openf_save_bmp] sends to the file it opened. *)
Definition save_bmp_stream (width height : Z) (pixels : list byte)
  : exec (list byte) :=
  let row_size := usz (row_size_of width) in
  let out := write_file_header (save_file_header width height) in
  let out := out ++ write_info_header (save_info_header width height) in
  save_rows_loop (Z.to_nat height) 0 width height row_size pixels out.

(** [openf_save_bmp(path, image)]; [None] is a NULL pointer.  The result
    is the file system after the call: [fopen(path, "wb")] creates the
    file or empties it, and the bytes written become its content. *)
Definition openf_save_bmp (fs : gmap string (list byte))
    (path : option string) (image : option OpenF_Image)
  : exec (gmap string (list byte)) :=
  match path, image with
  | Some path, Some image =>
    match pixels image with
    | None => Fail OPENF_ERR_NULL_ARG
    | Some px =>
      do out <- save_bmp_stream (width image) (height image) px;
      Ret (<[path := out]> fs)
    end
  | _, _ => Fail OPENF_ERR_NULL_ARG
  end.

(** ** Vocabulary of the statements *)

(** The headers a file content holds at its start. *)
Definition file_header_of (data : list byte) : OpenF_BMPFileHeader :=
  read_file_header (take sizeof_file_header data).

Definition info_header_of (data : list byte) : OpenF_BMPInfoHeader :=
  read_info_header (take sizeof_info_header (drop sizeof_file_header data)).

(** The sizes the codec computes on [unsigned int] for a [width] by
    [height] image do not wrap around: the padded row [width * 3 + 3] and
    the canonical buffer [width * height * 3].  Outside of this range the
    loops index outside their buffers. *)
Definition fits_unsigned (width height : Z) : Prop :=
  width * 3 + 3 < 2 ^ 32 ∧ width * height * 3 < 2 ^ 32.

(** A stream opened on a content, at its start. *)
Definition stream_of (data : list byte) : FILE :=
  {| f_data := data; f_pos := 0 |}.

(** A file content that passes every check of the decoder, whose sizes
    are in the range above and that holds all the rows its header
    announces, from the declared offset on. *)
Definition decodable (data : list byte) : Prop :=
  let file_header := file_header_of data in
  let info_header := info_header_of data in
  (54 ≤ length data)%nat ∧
  bfType file_header = 0x4D42 ∧
  biBitCount info_header = 24 ∧
  biCompression info_header = 0 ∧
  0 < biWidth info_header ∧
  biHeight info_header ≠ 0 ∧
  fits_unsigned (biWidth info_header) (Z.abs (biHeight info_header)) ∧
  bfOffBits file_header
  + Z.abs (biHeight info_header) * row_size_of (biWidth info_header)
  ≤ Z.of_nat (length data).

(** The pixel bytes of the [i]-th row stored in a file: the first
    [width * 3] bytes of the [i]-th group of [row_size] bytes from the
    offset [off] on. *)
Definition stored_row (data : list byte) (off row_size width i : Z)
  : list byte :=
  take (Z.to_nat (width * 3)) (drop (Z.to_nat (off + i * row_size)) data).

(** The row [t] of a canonical pixel buffer. *)
Definition canonical_row (px : list byte) (width t : Z) : list byte :=
  take (Z.to_nat (width * 3)) (drop (Z.to_nat (t * (width * 3))) px).

(** Exchange of the first and the third byte of every triple. *)
Fixpoint swap_channels (l : list byte) : list byte :=
  match l with
  | b0 :: b1 :: b2 :: l' => b2 :: b1 :: b0 :: swap_channels l'
  | _ => l
  end.

(** Files for the examples: a file header with the signature and the
    offset [off], the info header [ih], then [body]. *)
Definition bmp_file (off : Z) (ih : OpenF_BMPInfoHeader) (body : list byte)
  : list byte :=
  write_file_header
    {| bfType := 0x4D42; bfSize := 54 + Z.of_nat (length body);
       bfReserved1 := 0; bfReserved2 := 0; bfOffBits := off |} ++
  write_info_header ih ++ body.

Definition info_24bit (w h : Z) : OpenF_BMPInfoHeader :=
  {| biSize := 40; biWidth := w; biHeight := h; biPlanes := 1;
     biBitCount := 24; biCompression := 0; biSizeImage := 0;
     biXPelsPerMeter := 0; biYPelsPerMeter := 0;
     biClrUsed := 0; biClrImportant := 0 |}.

(** The info header [ih] with other values in the three fields the
    decoder does not compare with anything. *)
Definition with_unchecked_fields (ih : OpenF_BMPInfoHeader)
    (hsize planes isize : Z) : OpenF_BMPInfoHeader :=
  {| biSize := hsize; biWidth := biWidth ih; biHeight := biHeight ih;
     biPlanes := planes; biBitCount := biBitCount ih;
     biCompression := biCompression ih; biSizeImage := isize;
     biXPelsPerMeter := biXPelsPerMeter ih;
     biYPelsPerMeter := biYPelsPerMeter ih;
     biClrUsed := biClrUsed ih; biClrImportant := biClrImportant ih |}.

(** One pixel whose bytes in the file are 0x10, 0x20, 0x30, and the
    padding byte of its row. *)
Definition bmp_1x1 : list byte :=
  bmp_file 54 (info_24bit 1 1) [x10; x20; x30; x00].

(** Two rows of one pixel, stored bottom-up and stored top-down. *)
Definition bmp_1x2_bottom_up : list byte :=
  bmp_file 54 (info_24bit 1 2) [x01; x02; x03; x00; x04; x05; x06; x00].

Definition bmp_1x2_top_down : list byte :=
  bmp_file 54 (info_24bit 1 (-2)) [x01; x02; x03; x00; x04; x05; x06; x00].

(** An image of one column and 1431655767 rows, whose 4294967301 bytes
    start with 1, 2, 3, 4, 5 and are zero from there on. *)
Definition tall_image_pixels : list byte :=
  [x01; x02; x03; x04; x05] ++ replicate (Z.to_nat 4294967296) x00.

Definition tall_image : OpenF_Image :=
  {| width := 1; height := 1431655767; pixels := Some tall_image_pixels |}.

(** The rows of a file of one column and 1431655766 rows, each of one
    pixel and one padding byte. *)
Definition tall_file_rows : list byte :=
  replicate (Z.to_nat (4 * 1431655766)) x00.

(** ** The file operations *)

(** [OpenF_File]: an allocated content buffer and its size. *)
Record OpenF_File : Type := {
  data : option (list byte);  (* char*; None is NULL *)
  size : Z                    (* size_t *)
}.

(** What a call of a file operation leaves: the code it returned and the
    file system after it, the absence of a behaviour defined by C, or a
    loop that needs more steps than the embedding was given. *)
Inductive fs_result : Type :=
| Returned (e : OpenF_Error) (fs : gmap string (list byte))
| Undefined
| OutOfFuel.

(** [strlen(s)] on the buffer [s]: the position of its first zero byte;
    a buffer without one is read past its end. *)
Fixpoint strlen (s : list byte) : exec Z :=
  match s with
  | [] => Undef
  | b :: s' =>
    if Byte.eqb b x00 then Ret 0
    else do n <- strlen s'; Ret (n + 1)
  end.

(** [memcpy(dst, src, n)]. *)
Definition memcpy (dst src : list byte) (n : Z) : exec (list byte) :=
  if decide (Z.to_nat n ≤ length src ∧ Z.to_nat n ≤ length dst)%nat
  then Ret (take (Z.to_nat n) src ++ drop (Z.to_nat n) dst)
  else Undef.

(** The copy of a string that [openf_init_file] and [openf_strdup] make:
    [malloc(len + 1)], [memcpy], [buf[len] = '\0']. *)
Definition copy_string (s : list byte) : exec (list byte * Z) :=
  do len <- strlen s;
  let buf := malloc (addsz len 1) in
  do buf <- memcpy buf s len;
  do buf <- store8 buf len x00;
  Ret (buf, len).

(** [openf_init_file(file, content)]; [file] tells whether the pointer is
    not NULL, [content] is the buffer that holds the string. *)
Definition openf_init_file (file : bool) (content : option (list byte))
  : exec OpenF_File :=
  if negb file then Fail OPENF_ERR_NULL_ARG
  else match content with
       | None => Ret {| data := None; size := 0 |}
       | Some content =>
         do r <- copy_string content;
         Ret {| data := Some (fst r); size := snd r |}
       end.

(** [openf_free_file(file)] on the structure [file] points to. *)
Definition openf_free_file (file : option OpenF_File) : option OpenF_File :=
  match file with
  | None => None
  | Some f =>
    match data f with
    | Some _ => Some {| data := None; size := 0 |}
    | None => Some f
    end
  end.

(** [openf_strdup(src, out_dup)]. *)
Definition openf_strdup (src : option (list byte)) (out_dup : bool)
  : exec (list byte) :=
  match src, out_dup with
  | Some src, true => do r <- copy_string src; Ret (fst r)
  | _, _ => Fail OPENF_ERR_NULL_ARG
  end.

(** [openf_read(path, out_file)]. *)
Definition openf_read (fs : gmap string (list byte)) (path : option string)
    (out_file : bool) : exec OpenF_File :=
  match path, out_file with
  | Some path, true =>
    match fopen_rb fs path with
    | None => Fail OPENF_ERR_OPEN_FAILED
    | Some f =>
      (* fseek(f, 0, SEEK_END); ftell(f); rewind(f) *)
      let filesize := Z.of_nat (length (f_data f)) in
      let buffer := malloc (addsz filesize 1) in
      let '(chunk, f) := fread (Z.to_nat filesize) f in
      let read_bytes := Z.of_nat (length chunk) in
      if decide (read_bytes ≠ usz filesize)
      then Fail OPENF_ERR_READ_FAILED
      else
        let buffer := chunk ++ drop (length chunk) buffer in
        do buffer <- store8 buffer filesize x00;
        Ret {| data := Some buffer; size := usz filesize |}
    end
  | _, _ => Fail OPENF_ERR_NULL_ARG
  end.

(** [fopen(path, "wb")]: the file is created, or emptied. *)
Definition fopen_wb (fs : gmap string (list byte)) (path : string)
  : gmap string (list byte) :=
  <[path := []]> fs.

(** [fopen(path, "ab")]: the file is created when there is none. *)
Definition fopen_ab (fs : gmap string (list byte)) (path : string)
  : gmap string (list byte) :=
  match fs !! path with
  | Some _ => fs
  | None => <[path := []]> fs
  end.

(** [fwrite] of the bytes [chunk] at the end of the file [path]. *)
Definition fwrite_end (fs : gmap string (list byte)) (path : string)
    (chunk : list byte) : gmap string (list byte) :=
  <[path := default [] (fs !! path) ++ chunk]> fs.

(** [openf_write(path, data, size)]: [fwrite] reads [size] bytes of the
    buffer. *)
Definition openf_write (fs : gmap string (list byte)) (path : option string)
    (data : option (list byte)) (size : Z) : fs_result :=
  match path, data with
  | Some path, Some data =>
    let fs' := fopen_wb fs path in
    if decide (Z.to_nat size ≤ length data)%nat
    then Returned OPENF_OK (fwrite_end fs' path (take (Z.to_nat size) data))
    else Undefined
  | _, _ => Returned OPENF_ERR_NULL_ARG fs
  end.

(** [openf_append_text(path, text)]. *)
Definition openf_append_text (fs : gmap string (list byte))
    (path : option string) (text : option (list byte)) : fs_result :=
  match path, text with
  | Some path, Some text =>
    let fs' := fopen_ab fs path in
    match strlen text with
    | Ret len =>
      Returned OPENF_OK (fwrite_end fs' path (take (Z.to_nat len) text))
    | _ => Undefined
    end
  | _, _ => Returned OPENF_ERR_NULL_ARG fs
  end.

(** [openf_exists(path)]. *)
Definition openf_exists (fs : gmap string (list byte)) (path : option string)
  : Z :=
  match path with
  | None => 0
  | Some path =>
    match fopen_rb fs path with
    | None => 0
    | Some _ => 1
    end
  end.

(** [openf_get_size(path, out_size)]. *)
Definition openf_get_size (fs : gmap string (list byte))
    (path : option string) (out_size : bool) : exec Z :=
  match path, out_size with
  | Some path, true =>
    match fopen_rb fs path with
    | None => Fail OPENF_ERR_FILE_NOT_FOUND
    | Some f =>
      (* fseek(f, 0, SEEK_END); ftell(f) *)
      let size := Z.of_nat (length (f_data f)) in
      Ret (usz size)
    end
  | _, _ => Fail OPENF_ERR_NULL_ARG
  end.

(** A stream open for reading while the same call writes files: it
    designates its file, whose content is what the file system holds when
    the stream is read. *)
Record RFILE : Type := {
  r_path : string;
  r_pos : nat
}.

Definition fread_fs (fs : gmap string (list byte)) (n : nat) (f : RFILE)
  : list byte * RFILE :=
  let chunk := take n (drop (r_pos f) (default [] (fs !! r_path f))) in
  (chunk, {| r_path := r_path f; r_pos := (r_pos f + length chunk)%nat |}).

(** [sizeof(buffer)] of [char buffer[8192]]. *)
Definition copy_buffer_size : nat := Z.to_nat 8192.

(** [while ((bytes = fread(buffer, 1, sizeof(buffer), fin)) > 0)] with the
    [fwrite] of these bytes to [fout] as its body.  Written bytes reach the
    file at once. *)
Fixpoint copy_chunks (fuel : nat) (fs : gmap string (list byte))
    (fin : RFILE) (fout : string) : option (gmap string (list byte)) :=
  match fuel with
  | O => None
  | S fuel' =>
    let '(buffer, fin) := fread_fs fs copy_buffer_size fin in
    if decide (0 < length buffer)%nat
    then copy_chunks fuel' (fwrite_end fs fout buffer) fin fout
    else Some fs
  end.

(** [openf_copy_file(src, dest)]. *)
Definition openf_copy_file (fuel : nat) (fs : gmap string (list byte))
    (src dest : option string) : fs_result :=
  match src, dest with
  | Some src, Some dest =>
    match fs !! src with
    | None => Returned OPENF_ERR_FILE_NOT_FOUND fs
    | Some _ =>
      let fsrc := {| r_path := src; r_pos := 0 |} in
      let fs := fopen_wb fs dest in
      match copy_chunks fuel fs fsrc dest with
      | None => OutOfFuel
      | Some fs =>
        (* ferror(fsrc) is false: a read does not fail in the embedding;
           fclose(fsrc); fclose(fdest) *)
        Returned OPENF_OK fs
      end
    end
  | _, _ => Returned OPENF_ERR_NULL_ARG fs
  end.

(** The loop [for (int i = 0; i < 2; i++)] of [openf_merge_files] over the
    input paths left.  Each input is closed and then asked for its error
    indicator, [fclose(fin); if (ferror(fin))]: C gives this call of
    [ferror] no meaning.  [stale] is what it answers: [None] when nothing
    can be assumed, [Some b] on a C library where it answers [b]. *)
Fixpoint merge_inputs (stale : option bool) (fuel : nat)
    (fs : gmap string (list byte)) (out : string) (files : list string)
  : fs_result :=
  match files with
  | [] => Returned OPENF_OK fs
  | file :: files' =>
    match fs !! file with
    | None => Returned OPENF_ERR_FILE_NOT_FOUND fs
    | Some _ =>
      match copy_chunks fuel fs {| r_path := file; r_pos := 0 |} out with
      | None => OutOfFuel
      | Some fs =>
        match stale with
        | None => Undefined
        | Some true => Returned OPENF_ERR_READ_FAILED fs
        | Some false => merge_inputs stale fuel fs out files'
        end
      end
    end
  end.

(** [openf_merge_files(out, a, b)]. *)
Definition openf_merge_files (stale : option bool) (fuel : nat)
    (fs : gmap string (list byte)) (out a b : option string) : fs_result :=
  match out, a, b with
  | Some out, Some a, Some b =>
    merge_inputs stale fuel (fopen_wb fs out) out [a; b]
  | _, _, _ => Returned OPENF_ERR_NULL_ARG fs
  end.

(** The string a buffer holds: its bytes before the first zero byte. *)
Fixpoint c_string (s : list byte) : list byte :=
  match s with
  | [] => []
  | b :: s' => if Byte.eqb b x00 then [] else b :: c_string s'
  end.

(** * Properties *)

(** ** Machine arithmetic *)

Lemma u32_small z : 0 ≤ z < 2 ^ 32 → u32 z = z.
Proof. intros H. unfold u32. apply Z.mod_small. lia. Qed.

Lemma usz_small z : 0 ≤ z < 2 ^ 64 → usz z = z.
Proof. intros H. unfold usz. apply Z.mod_small. lia. Qed.

Lemma i32_small z : - 2 ^ 31 ≤ z < 2 ^ 31 → i32 z = z.
Proof. intros H. unfold i32. rewrite Z.mod_small by lia. lia. Qed.

Lemma u32_range z : 0 ≤ u32 z < 2 ^ 32.
Proof. unfold u32. apply Z.mod_pos_bound. lia. Qed.

Lemma i32_range z : - 2 ^ 31 ≤ i32 z < 2 ^ 31.
Proof.
  unfold i32. pose proof (Z.mod_pos_bound (z + 2 ^ 31) (2 ^ 32)). lia.
Qed.

(** Removes the reductions of machine arithmetic whose argument is in
    range. *)
Ltac unwrap_step :=
  match goal with
  | |- context [u32 ?z] => rewrite (u32_small z) by lia
  | |- context [usz ?z] => rewrite (usz_small z) by lia
  end.

Ltac unwrap :=
  unfold add32, sub32, mul32, div32, addsz, mulsz; repeat unwrap_step.

(** Rounding up to a multiple of four. *)
Lemma round4_bounds a : a ≤ (a + 3) / 4 * 4 ≤ a + 3.
Proof.
  pose proof (Z.div_mod (a + 3) 4). pose proof (Z.mod_pos_bound (a + 3) 4).
  lia.
Qed.

Lemma row_size_of_small w :
  0 ≤ w → w * 3 + 3 < 2 ^ 32 → row_size_of w = (w * 3 + 3) / 4 * 4.
Proof.
  intros Hw Hmax. pose proof (round4_bounds (w * 3)).
  assert (0 ≤ (w * 3 + 3) / 4) by (apply Z.div_pos; lia).
  unfold row_size_of. by unwrap.
Qed.

(** ** Buffers *)

Lemma load8_in buf i :
  0 ≤ i < Z.of_nat (length buf) →
  ∃ b, buf !! Z.to_nat i = Some b ∧ load8 buf i = Ret b.
Proof.
  intros H. destruct (lookup_lt_is_Some_2 buf (Z.to_nat i)) as [b Hb]; [lia|].
  exists b. split; [done|]. unfold load8. by rewrite Hb.
Qed.

Lemma store8_in buf i b :
  0 ≤ i < Z.of_nat (length buf) →
  store8 buf i b = Ret (<[Z.to_nat i := b]> buf).
Proof. intros H. unfold store8. case_decide; [done|lia]. Qed.

(** A read that the file can serve in full. *)
Lemma fread_full n data p :
  (p + n ≤ length data)%nat →
  ∃ chunk, fread n {| f_data := data; f_pos := p |}
           = (chunk, {| f_data := data; f_pos := (p + n)%nat |}) ∧
    length chunk = n ∧
    ∀ i, (i < n)%nat → chunk !! i = data !! (p + i)%nat.
Proof.
  intros H. exists (take n (drop p data)).
  assert (length (take n (drop p data)) = n) as Hl
    by (rewrite length_take, length_drop; lia).
  split; [unfold fread; cbn; by rewrite Hl|]. split; [done|].
  intros i Hi. rewrite lookup_take_lt by done. by rewrite lookup_drop.
Qed.

(** ** The loops of the decoder *)

(** One stored row: the loop writes the [w] pixels of the row [ty] of the
    canonical buffer, in range, and nothing else. *)
Lemma load_row_loop_spec (w ty : Z) (row : list byte) :
  0 ≤ ty → 3 * w ≤ Z.of_nat (length row) → (ty * w + w) * 3 ≤ 2 ^ 32 →
  ∀ (n : nat) (x : Z) (px : list byte),
    0 ≤ x → x + Z.of_nat n = w →
    (ty * w + w) * 3 ≤ Z.of_nat (length px) →
    ∃ px' : list byte,
      load_row_loop n x w ty row px = Ret px' ∧
      length px' = length px ∧
      (∀ x' c, x ≤ x' < w → 0 ≤ c < 3 →
         px' !! Z.to_nat ((ty * w + x') * 3 + c)
         = row !! Z.to_nat (x' * 3 + 2 - c)) ∧
      (∀ j : nat, Z.of_nat j < (ty * w + x) * 3 ∨ (ty * w + w) * 3 ≤ Z.of_nat j →
         px' !! j = px !! j).
Proof.
  intros Hty Hrow Hmax n.
  induction n as [|n IH]; intros x px Hx Hn Hlen.
  - exists px. split; [done|]. split; [done|]. split; [intros; lia | done].
  - assert (0 ≤ ty * w) as Hp by nia.
    cbn [load_row_loop]. unwrap.
    destruct (load8_in row (x * 3 + 2)) as (b2 & Hb2 & ->); [lia|].
    cbn [exec_bind]. rewrite store8_in by lia. cbn [exec_bind].
    destruct (load8_in row (x * 3 + 1)) as (b1 & Hb1 & ->); [lia|].
    cbn [exec_bind]. rewrite store8_in by (rewrite !length_insert; lia).
    cbn [exec_bind].
    destruct (load8_in row (x * 3 + 0)) as (b0 & Hb0 & ->); [lia|].
    cbn [exec_bind]. rewrite store8_in by (rewrite !length_insert; lia).
    cbn [exec_bind].
    edestruct (IH (x + 1)) as (px' & -> & Hl & Hin & Hout);
      [lia | lia | rewrite !length_insert; lia |].
    exists px'. split; [done|]. split; [by rewrite Hl, !length_insert|].
    split.
    + intros x' c Hx' Hc. destruct (decide (x' = x)) as [-> | Hne].
      * rewrite Hout by lia.
        assert (c = 0 ∨ c = 1 ∨ c = 2) as [-> | [-> | ->]] by lia.
        -- rewrite list_lookup_insert_ne by lia.
           rewrite list_lookup_insert_ne by lia.
           rewrite list_lookup_insert_eq by lia.
           rewrite <- Hb2. f_equal. lia.
        -- rewrite list_lookup_insert_ne by lia.
           rewrite list_lookup_insert_eq by (rewrite !length_insert; lia).
           rewrite <- Hb1. f_equal. lia.
        -- rewrite list_lookup_insert_eq by (rewrite !length_insert; lia).
           rewrite <- Hb0. f_equal. lia.
      * apply Hin; lia.
    + intros j Hj. rewrite Hout by lia.
      rewrite !list_lookup_insert_ne by lia. done.
Qed.

(** The target row without the reductions of machine arithmetic. *)
Lemma load_target_y_eq td h y :
  0 ≤ y < h → h < 2 ^ 32 →
  load_target_y td h y = if td then y else h - 1 - y.
Proof.
  intros Hy Hh. unfold load_target_y. destruct td; [done|]. by unwrap.
Qed.

(** The bytes of two different rows of a buffer do not overlap. *)
Lemma rows_disjoint w t t' x c :
  0 ≤ x < w → 0 ≤ c < 3 → t ≠ t' →
  (t' * w + x) * 3 + c < (t * w) * 3 ∨
  (t * w + w) * 3 ≤ (t' * w + x) * 3 + c.
Proof.
  intros Hx Hc Hne.
  destruct (Z.lt_trichotomy t t') as [?|[?|?]]; [right | lia | left]; nia.
Qed.

Section decoder_rows.

Variables (w h rs : Z) (td : bool) (data : list byte).

Hypothesis Hw : 0 ≤ w.
Hypothesis Hrs : 3 * w ≤ rs.
Hypothesis Hh : 0 ≤ h.
Hypothesis Hmax : w * h * 3 < 2 ^ 32.
Hypothesis Hh32 : h < 2 ^ 32.

(** All rows: with [n] rows left from the stored row [y] on, the file
    holding them from the position [p] on, the loop fills the target rows
    of the rows [y] to [h - 1] and leaves the target rows of the rows before
    [y] as they are. *)
Lemma load_rows_loop_spec :
  ∀ (n : nat) (y : Z) (p : nat) (px : list byte),
    0 ≤ y → y + Z.of_nat n = h →
    Z.of_nat p + Z.of_nat n * rs ≤ Z.of_nat (length data) →
    Z.of_nat (length px) = w * h * 3 →
    ∃ px' : list byte,
      load_rows_loop n y w h rs td {| f_data := data; f_pos := p |} px
      = Ret px' ∧
      length px' = length px ∧
      (∀ y' x c, y ≤ y' < h → 0 ≤ x < w → 0 ≤ c < 3 →
         px' !! Z.to_nat (((if td then y' else h - 1 - y') * w + x) * 3 + c)
         = data !! Z.to_nat (Z.of_nat p + (y' - y) * rs + x * 3 + 2 - c)) ∧
      (∀ y' x c, 0 ≤ y' < y → 0 ≤ x < w → 0 ≤ c < 3 →
         px' !! Z.to_nat (((if td then y' else h - 1 - y') * w + x) * 3 + c)
         = px !! Z.to_nat (((if td then y' else h - 1 - y') * w + x) * 3 + c)).
Proof.
  intros n.
  induction n as [|n IH]; intros y p px Hy Hn Hdata Hlen.
  - exists px. split; [done|]. split; [done|]. split; [intros; lia | done].
  - cbn [load_rows_loop].
    destruct (fread_full (Z.to_nat rs) data p) as (row & -> & Hrl & Hrow);
      [nia|].
    case_decide as Hd; [lia|]. clear Hd.
    rewrite load_target_y_eq by lia.
    set (ty := if td then y else h - 1 - y).
    assert (0 ≤ ty < h) as Hty by (subst ty; destruct td; lia).
    assert (ty * w + w ≤ h * w) as Hb by nia.
    edestruct (load_row_loop_spec w ty row)
      with (n := Z.to_nat w) (x := 0) (px := px)
      as (px1 & -> & Hl1 & Hin1 & Hout1); [lia | lia | nia | lia | lia | nia |].
    cbn [exec_bind]. unwrap.
    edestruct (IH (y + 1) (p + Z.to_nat rs)%nat px1)
      as (px' & -> & Hl & Hin & Hout); [lia | lia | nia | lia |].
    exists px'. split; [done|]. split; [congruence|]. split.
    + intros y' x c Hy' Hx Hc. destruct (decide (y' = y)) as [-> | Hne].
      * rewrite Hout by lia. fold ty. rewrite Hin1 by lia.
        rewrite Hrow by lia. f_equal. lia.
      * rewrite Hin by lia. f_equal. lia.
    + intros y' x c Hy' Hx Hc. rewrite Hout by lia.
      apply Hout1.
      set (ty' := if td then y' else h - 1 - y').
      assert (ty ≠ ty') as Hne by (subst ty ty'; destruct td; lia).
      assert (0 ≤ ty') by (subst ty'; destruct td; lia).
      pose proof (rows_disjoint w ty ty' x c Hx Hc Hne). lia.
Qed.

End decoder_rows.

(** ** The loops of the encoder *)

(** One row: the loop writes the [w] pixels of the row buffer from the row
    [sy] of the image, in range, and leaves the padding as it is. *)
Lemma save_row_loop_spec (w sy : Z) (px : list byte) :
  0 ≤ sy → (sy * w + w) * 3 ≤ Z.of_nat (length px) →
  (sy * w + w) * 3 ≤ 2 ^ 32 →
  ∀ (n : nat) (x : Z) (row : list byte),
    0 ≤ x → x + Z.of_nat n = w →
    3 * w ≤ Z.of_nat (length row) →
    ∃ row' : list byte,
      save_row_loop n x w sy px row = Ret row' ∧
      length row' = length row ∧
      (∀ x' c, x ≤ x' < w → 0 ≤ c < 3 →
         row' !! Z.to_nat (x' * 3 + c)
         = px !! Z.to_nat ((sy * w + x') * 3 + 2 - c)) ∧
      (∀ j : nat, Z.of_nat j < x * 3 ∨ w * 3 ≤ Z.of_nat j →
         row' !! j = row !! j).
Proof.
  intros Hsy Hpx Hmax n.
  induction n as [|n IH]; intros x row Hx Hn Hlen.
  - exists row. split; [done|]. split; [done|]. split; [intros; lia | done].
  - assert (0 ≤ sy * w) as Hp by nia.
    cbn [save_row_loop]. unwrap.
    destruct (load8_in px ((sy * w + x) * 3 + 2)) as (b2 & Hb2 & ->); [lia|].
    cbn [exec_bind]. rewrite store8_in by lia. cbn [exec_bind].
    destruct (load8_in px ((sy * w + x) * 3 + 1)) as (b1 & Hb1 & ->); [lia|].
    cbn [exec_bind]. rewrite store8_in by (rewrite !length_insert; lia).
    cbn [exec_bind].
    destruct (load8_in px ((sy * w + x) * 3 + 0)) as (b0 & Hb0 & ->); [lia|].
    cbn [exec_bind]. rewrite store8_in by (rewrite !length_insert; lia).
    cbn [exec_bind].
    edestruct (IH (x + 1)) as (row' & -> & Hl & Hin & Hout);
      [lia | lia | rewrite !length_insert; lia |].
    exists row'. split; [done|]. split; [by rewrite Hl, !length_insert|].
    split.
    + intros x' c Hx' Hc. destruct (decide (x' = x)) as [-> | Hne].
      * rewrite Hout by lia.
        assert (c = 0 ∨ c = 1 ∨ c = 2) as [-> | [-> | ->]] by lia.
        -- rewrite list_lookup_insert_ne by lia.
           rewrite list_lookup_insert_ne by lia.
           rewrite list_lookup_insert_eq by lia.
           rewrite <- Hb2. f_equal. lia.
        -- rewrite list_lookup_insert_ne by lia.
           rewrite list_lookup_insert_eq by (rewrite !length_insert; lia).
           rewrite <- Hb1. f_equal. lia.
        -- rewrite list_lookup_insert_eq by (rewrite !length_insert; lia).
           rewrite <- Hb0. f_equal. lia.
      * apply Hin; lia.
    + intros j Hj. rewrite Hout by lia.
      rewrite !list_lookup_insert_ne by lia. done.
Qed.

Section encoder_rows.

Variables (w h rs : Z) (px : list byte).

Hypothesis Hw : 0 ≤ w.
Hypothesis Hrs : 3 * w ≤ rs.
Hypothesis Hh : 0 ≤ h.
Hypothesis Hmax : w * h * 3 < 2 ^ 32.
Hypothesis Hh32 : h < 2 ^ 32.
Hypothesis Hpx : w * h * 3 ≤ Z.of_nat (length px).

(** The rows the encoder appends: row [y'] of the output holds the row
    [h - 1 - y'] of the image with the two outer channels exchanged, then
    zero bytes up to the stride. *)
Lemma save_rows_loop_spec :
  ∀ (n : nat) (y : Z) (out : list byte),
    0 ≤ y → y + Z.of_nat n = h →
    ∃ rows : list byte,
      save_rows_loop n y w h rs px out = Ret (out ++ rows) ∧
      Z.of_nat (length rows) = Z.of_nat n * rs ∧
      (∀ y' x c, y ≤ y' < h → 0 ≤ x < w → 0 ≤ c < 3 →
         rows !! Z.to_nat ((y' - y) * rs + x * 3 + c)
         = px !! Z.to_nat (((h - 1 - y') * w + x) * 3 + 2 - c)) ∧
      (∀ y' j, y ≤ y' < h → w * 3 ≤ j < rs →
         rows !! Z.to_nat ((y' - y) * rs + j) = Some x00).
Proof.
  intros n.
  induction n as [|n IH]; intros y out Hy Hn.
  - exists []. rewrite app_nil_r. split; [done|]. split; [cbn; lia|].
    split; intros; lia.
  - cbn [save_rows_loop]. unwrap.
    assert (0 ≤ h - 1 - y < h) as Hsy by lia.
    assert ((h - 1 - y) * w + w ≤ h * w) as Hb by nia.
    edestruct (save_row_loop_spec w (h - 1 - y) px) with
      (n := Z.to_nat w) (x := 0) (row := replicate (Z.to_nat rs) x00)
      as (row & -> & Hl1 & Hin1 & Hout1);
      [lia | nia | nia | lia | lia | rewrite length_replicate; lia |].
    rewrite length_replicate in Hl1.
    cbn [exec_bind].
    edestruct (IH (y + 1) (out ++ row)) as (rows & -> & Hl & Hin & Hpad);
      [lia | lia |].
    exists (row ++ rows). split; [by rewrite app_assoc|].
    split; [rewrite length_app; nia|]. split.
    + intros y' x c Hy' Hx Hc. destruct (decide (y' = y)) as [-> | Hne].
      * rewrite lookup_app_l by nia.
        replace ((y - y) * rs + x * 3 + c) with (x * 3 + c) by lia.
        apply Hin1; lia.
      * assert (rs ≤ (y' - y) * rs) by nia.
        rewrite lookup_app_r by lia. rewrite <- Hin by lia. f_equal. lia.
    + intros y' j Hy' Hj. destruct (decide (y' = y)) as [-> | Hne].
      * rewrite lookup_app_l by nia.
        rewrite Hout1 by lia. apply lookup_replicate_2. lia.
      * assert (rs ≤ (y' - y) * rs) by nia.
        rewrite lookup_app_r by lia. rewrite <- (Hpad y' j) by lia.
        f_equal. lia.
Qed.

End encoder_rows.

(** ** Bytes and header fields *)

Lemma u8_range b : 0 ≤ u8 b < 256.
Proof. unfold u8. pose proof (Byte.to_N_bounded b). lia. Qed.

Lemma u8_byte_of z : u8 (byte_of z) = z mod 256.
Proof.
  unfold u8, byte_of. pose proof (Z.mod_pos_bound z 256).
  destruct (Byte.of_N (Z.to_N (z mod 256))) as [b|] eqn:E.
  - apply Byte.to_of_N in E. rewrite E. lia.
  - apply Byte.of_N_None_iff in E. lia.
Qed.

Lemma byte_of_u8 b : byte_of (u8 b) = b.
Proof.
  unfold byte_of. rewrite Z.mod_small by apply u8_range.
  unfold u8. rewrite N2Z.id. by rewrite Byte.of_to_N.
Qed.

Lemma le_decode_range bs : 0 ≤ le_decode bs < 256 ^ Z.of_nat (length bs).
Proof.
  induction bs as [|b bs IH]; [cbn; lia|].
  cbn [le_decode length]. pose proof (u8_range b).
  rewrite Nat2Z.inj_succ, Z.pow_succ_r by lia. lia.
Qed.

Lemma le_decode_encode n z :
  le_decode (le_encode n z) = z mod 256 ^ Z.of_nat n.
Proof.
  revert z. induction n as [|n IH]; intros z.
  - cbn. by rewrite Z.mod_1_r.
  - cbn [le_encode le_decode]. rewrite u8_byte_of, IH.
    rewrite Nat2Z.inj_succ, Z.pow_succ_r by lia.
    rewrite Z.rem_mul_r; lia.
Qed.

Lemma get_u32_range raw off : 0 ≤ get_u32 raw off < 2 ^ 32.
Proof.
  unfold get_u32. pose proof (le_decode_range (take 4 (drop off raw))) as H.
  assert (length (take 4 (drop off raw)) ≤ 4)%nat by (rewrite length_take; lia).
  assert (256 ^ Z.of_nat (length (take 4 (drop off raw))) ≤ 256 ^ 4)
    by (apply Z.pow_le_mono_r; lia).
  lia.
Qed.

Lemma read_write_file_header h rest :
  file_header_of (write_file_header h ++ rest)
  = {| bfType := bfType h mod 2 ^ 16;
       bfSize := u32 (bfSize h);
       bfReserved1 := bfReserved1 h mod 2 ^ 16;
       bfReserved2 := bfReserved2 h mod 2 ^ 16;
       bfOffBits := u32 (bfOffBits h) |}.
Proof.
  unfold file_header_of, read_file_header. f_equal.
  - exact (le_decode_encode 2 (bfType h)).
  - exact (le_decode_encode 4 (bfSize h)).
  - exact (le_decode_encode 2 (bfReserved1 h)).
  - exact (le_decode_encode 2 (bfReserved2 h)).
  - exact (le_decode_encode 4 (bfOffBits h)).
Qed.

Lemma read_write_info_header fh h rest :
  info_header_of (write_file_header fh ++ write_info_header h ++ rest)
  = {| biSize := u32 (biSize h);
       biWidth := i32 (u32 (biWidth h));
       biHeight := i32 (u32 (biHeight h));
       biPlanes := biPlanes h mod 2 ^ 16;
       biBitCount := biBitCount h mod 2 ^ 16;
       biCompression := u32 (biCompression h);
       biSizeImage := u32 (biSizeImage h);
       biXPelsPerMeter := i32 (u32 (biXPelsPerMeter h));
       biYPelsPerMeter := i32 (u32 (biYPelsPerMeter h));
       biClrUsed := u32 (biClrUsed h);
       biClrImportant := u32 (biClrImportant h) |}.
Proof.
  unfold info_header_of, read_info_header, get_i32. f_equal.
  - exact (le_decode_encode 4 (biSize h)).
  - f_equal. exact (le_decode_encode 4 (biWidth h)).
  - f_equal. exact (le_decode_encode 4 (biHeight h)).
  - exact (le_decode_encode 2 (biPlanes h)).
  - exact (le_decode_encode 2 (biBitCount h)).
  - exact (le_decode_encode 4 (biCompression h)).
  - exact (le_decode_encode 4 (biSizeImage h)).
  - f_equal. exact (le_decode_encode 4 (biXPelsPerMeter h)).
  - f_equal. exact (le_decode_encode 4 (biYPelsPerMeter h)).
  - exact (le_decode_encode 4 (biClrUsed h)).
  - exact (le_decode_encode 4 (biClrImportant h)).
Qed.

Lemma load_bmp_stream_short data :
  (length data < 14)%nat →
  load_bmp_stream (stream_of data) = Fail OPENF_ERR_READ_FAILED.
Proof.
  intros H. unfold load_bmp_stream, stream_of, fread, sizeof_file_header.
  cbn [f_pos f_data]. rewrite drop_0.
  case_decide as Hd; [done|]. rewrite length_take in Hd. lia.
Qed.

Lemma load_bmp_stream_headers data :
  (54 ≤ length data)%nat →
  load_bmp_stream (stream_of data) =
    let file_header := file_header_of data in
    let info_header := info_header_of data in
    if decide (bfType file_header ≠ 0x4D42)
    then Fail OPENF_ERR_INVALID_FORMAT
    else if decide (biBitCount info_header ≠ 24 ∨
                    biCompression info_header ≠ 0)
    then Fail OPENF_ERR_UNSUPPORTED
    else if decide (biWidth info_header ≤ 0 ∨ biHeight info_header = 0)
    then Fail OPENF_ERR_INVALID_FORMAT
    else
      let width := u32 (biWidth info_header) in
      let height :=
        u32 (if decide (biHeight info_header < 0)
             then neg_i32 (biHeight info_header)
             else biHeight info_header) in
      do pixels <- load_rows_loop (Z.to_nat height) 0 width height
                     (usz (row_size_of width))
                     (bool_decide (biHeight info_header < 0))
                     {| f_data := data;
                        f_pos := Z.to_nat (bfOffBits file_header) |}
                     (malloc (usz (mul32 (mul32 width height) 3)));
      Ret {| width := width; height := height; pixels := Some pixels |}.
Proof.
  intros H. unfold load_bmp_stream, stream_of, fread.
  cbn [f_data f_pos]. rewrite drop_0.
  assert (length (take sizeof_file_header data) = sizeof_file_header) as ->
    by (rewrite length_take; unfold sizeof_file_header; lia).
  case_decide as Hd; [done|]. clear Hd.
  assert (length (take sizeof_info_header (drop (0 + sizeof_file_header) data))
          = sizeof_info_header) as ->
    by (rewrite length_take, length_drop;
        unfold sizeof_file_header, sizeof_info_header; lia).
  fold (file_header_of data). 
  change (0 + sizeof_file_header)%nat with sizeof_file_header.
  fold (info_header_of data).
  cbn zeta.
  repeat case_decide; done.
Qed.

Lemma decoded_height_abs bh :
  - 2 ^ 31 ≤ bh < 2 ^ 31 →
  u32 (if decide (bh < 0) then neg_i32 bh else bh) = Z.abs bh.
Proof.
  intros H. case_decide.
  - destruct (decide (bh = - 2 ^ 31)) as [-> | Hne]; [done|].
    unfold neg_i32. rewrite i32_small by lia. rewrite u32_small by lia. lia.
  - rewrite u32_small by lia. lia.
Qed.

Lemma info_header_ranges data :
  - 2 ^ 31 ≤ biWidth (info_header_of data) < 2 ^ 31 ∧
  - 2 ^ 31 ≤ biHeight (info_header_of data) < 2 ^ 31.
Proof. split; apply i32_range. Qed.

Lemma file_header_off_range data :
  0 ≤ bfOffBits (file_header_of data) < 2 ^ 32.
Proof. apply get_u32_range. Qed.

Lemma load_bmp_stream_pixels data :
  decodable data →
  let w := biWidth (info_header_of data) in
  let bh := biHeight (info_header_of data) in
  let h := Z.abs bh in
  let off := bfOffBits (file_header_of data) in
  let rs := row_size_of w in
  ∃ px : list byte,
    load_bmp_stream (stream_of data)
    = Ret {| width := w; height := h; pixels := Some px |} ∧
    Z.of_nat (length px) = w * h * 3 ∧
    ∀ i x c, 0 ≤ i < h → 0 ≤ x < w → 0 ≤ c < 3 →
      px !! Z.to_nat (((if bool_decide (bh < 0) then i else h - 1 - i) * w + x)
                      * 3 + c)
      = data !! Z.to_nat (off + i * rs + x * 3 + 2 - c).
Proof.
  intros (Hlen & Hsig & Hbc & Hcomp & Hw & Hh & [Hf1 Hf2] & Hbytes) w bh h off rs.
  pose proof (info_header_ranges data) as [Hwr Hhr].
  pose proof (file_header_off_range data) as Hoff.
  fold w in Hwr, Hw, Hf1, Hf2, Hbytes. fold bh in Hhr, Hh, Hf2, Hbytes.
  fold h in Hf2, Hbytes. fold off in Hoff, Hbytes. fold rs in Hbytes.
  assert (0 < h) as Hhpos by (subst h; lia).
  assert (h ≤ w * h) as Hwh by nia.
  assert (rs = (w * 3 + 3) / 4 * 4) as Hrs
    by (subst rs; apply row_size_of_small; lia).
  pose proof (round4_bounds (w * 3)) as Hr4.
  rewrite load_bmp_stream_headers by done. cbn zeta.
  fold w bh.
  rewrite decide_False by lia.
  rewrite decide_False by lia.
  rewrite decide_False by lia.
  rewrite decoded_height_abs by done. fold h.
  rewrite (u32_small w) by lia. fold rs. fold off.
  assert (usz (mul32 (mul32 w h) 3) = w * h * 3) as ->
    by (assert (0 ≤ w * h) by nia; by unwrap).
  rewrite (usz_small rs) by lia.
  edestruct (load_rows_loop_spec w h rs (bool_decide (bh < 0)) data)
    with (n := Z.to_nat h) (y := 0) (p := Z.to_nat off)
         (px := malloc (w * h * 3))
    as (px & -> & Hl & Hin & _);
    [lia | lia | lia | lia | lia | lia | lia | lia
    | unfold malloc; rewrite length_replicate; nia |].
  exists px. split; [done|]. split.
  - rewrite Hl. unfold malloc. rewrite length_replicate. nia.
  - intros i x c Hi Hx Hc. rewrite Hin by lia. f_equal. lia.
Qed.

Lemma length_write_file_header h :
  length (write_file_header h) = 14%nat.
Proof. done. Qed.

Lemma length_write_info_header h :
  length (write_info_header h) = 40%nat.
Proof. done. Qed.

Lemma save_bmp_stream_spec w h px :
  0 ≤ w < 2 ^ 32 → 0 ≤ h < 2 ^ 32 → fits_unsigned w h →
  w * h * 3 ≤ Z.of_nat (length px) →
  ∃ rows : list byte,
    save_bmp_stream w h px
    = Ret (write_file_header (save_file_header w h) ++
           write_info_header (save_info_header w h) ++ rows) ∧
    Z.of_nat (length rows) = h * row_size_of w ∧
    (∀ i x c, 0 ≤ i < h → 0 ≤ x < w → 0 ≤ c < 3 →
       rows !! Z.to_nat (i * row_size_of w + x * 3 + c)
       = px !! Z.to_nat (((h - 1 - i) * w + x) * 3 + 2 - c)) ∧
    (∀ i j, 0 ≤ i < h → w * 3 ≤ j < row_size_of w →
       rows !! Z.to_nat (i * row_size_of w + j) = Some x00).
Proof.
  intros Hw Hh [Hf1 Hf2] Hpx.
  pose proof (round4_bounds (w * 3)) as Hr4.
  rewrite <- row_size_of_small in Hr4 by lia.
  unfold save_bmp_stream. rewrite (usz_small (row_size_of w)) by lia.
  edestruct (save_rows_loop_spec w h (row_size_of w) px)
    with (n := Z.to_nat h) (y := 0)
    as (rows & -> & Hl & Hin & Hpad); [lia .. |].
  rewrite Z2Nat.id in Hl by lia.
  exists rows. split; [by rewrite <- app_assoc|]. split; [done|]. split.
  - intros i x c Hi Hx Hc. rewrite <- Hin by lia. f_equal. lia.
  - intros i j Hi Hj. rewrite <- (Hpad i j) by lia. f_equal. lia.
Qed.

(** ** The encoder on every buffer that holds the image *)

(** The source index of the encoder, as the 32-bit arithmetic leaves it. *)
Lemma save_src_idx sy w x :
  mul32 (add32 (mul32 sy w) x) 3 = ((sy * w + x) * 3) mod 2 ^ 32.
Proof.
  unfold mul32, add32, u32.
  rewrite Z.add_mod_idemp_l by lia. by rewrite Z.mul_mod_idemp_l by lia.
Qed.

(** A buffer of width * height * 3 bytes holds every index the encoder
    forms, wrapped or not. *)
Lemma save_src_idx_in w h sy x (px : list byte) :
  0 ≤ sy < h → 0 ≤ x < w →
  w * h * 3 ≤ Z.of_nat (length px) →
  0 ≤ mul32 (add32 (mul32 sy w) x) 3 ∧
  mul32 (add32 (mul32 sy w) x) 3 + 2 < Z.of_nat (length px).
Proof.
  intros Hsy Hx Hpx. rewrite save_src_idx.
  assert (0 ≤ sy * w) by nia.
  assert (sy * w + w ≤ h * w) by nia.
  pose proof (Z.mod_pos_bound ((sy * w + x) * 3) (2 ^ 32) ltac:(lia)).
  pose proof (Z.mod_le ((sy * w + x) * 3) (2 ^ 32) ltac:(lia) ltac:(lia)).
  lia.
Qed.

(** One row of the encoder, without a bound on the source index: the
    pixel [x'] of the row buffer receives the three bytes at the index
    the 32-bit arithmetic yields, in reverse order. *)
Lemma save_row_loop_wrapped (w sy : Z) (px : list byte) :
  w * 3 ≤ 2 ^ 32 →
  (∀ x, 0 ≤ x < w →
     mul32 (add32 (mul32 sy w) x) 3 + 2 < Z.of_nat (length px)) →
  ∀ (n : nat) (x : Z) (row : list byte),
    0 ≤ x → x + Z.of_nat n = w →
    3 * w ≤ Z.of_nat (length row) →
    ∃ row' : list byte,
      save_row_loop n x w sy px row = Ret row' ∧
      length row' = length row ∧
      (∀ x' c, x ≤ x' < w → 0 ≤ c < 3 →
         row' !! Z.to_nat (x' * 3 + c)
         = px !! Z.to_nat (mul32 (add32 (mul32 sy w) x') 3 + 2 - c)) ∧
      (∀ j : nat, Z.of_nat j < x * 3 ∨ w * 3 ≤ Z.of_nat j →
         row' !! j = row !! j).
Proof.
  intros Hmax Hread n.
  induction n as [|n IH]; intros x row Hx Hn Hlen.
  - exists row. split; [done|]. split; [done|]. split; [intros; lia | done].
  - cbn [save_row_loop].
    pose proof (Hread x ltac:(lia)) as Hs.
    pose proof (u32_range ((add32 (mul32 sy w) x) * 3)) as Hs0.
    fold (mul32 (add32 (mul32 sy w) x) 3) in Hs0.
    set (s := mul32 (add32 (mul32 sy w) x) 3) in *.
    assert (usz (mul32 x 3) = x * 3) as -> by by unwrap.
    assert (add32 x 1 = x + 1) as -> by by unwrap.
    rewrite (usz_small s) by lia.
    unfold addsz. rewrite !usz_small by lia.
    destruct (load8_in px (s + 2)) as (b2 & Hb2 & ->); [lia|].
    cbn [exec_bind]. rewrite store8_in by lia. cbn [exec_bind].
    destruct (load8_in px (s + 1)) as (b1 & Hb1 & ->); [lia|].
    cbn [exec_bind]. rewrite store8_in by (rewrite !length_insert; lia).
    cbn [exec_bind].
    destruct (load8_in px (s + 0)) as (b0 & Hb0 & ->); [lia|].
    cbn [exec_bind]. rewrite store8_in by (rewrite !length_insert; lia).
    cbn [exec_bind].
    edestruct (IH (x + 1)) as (row' & -> & Hl & Hin & Hout);
      [lia | lia | rewrite !length_insert; lia |].
    exists row'. split; [done|]. split; [by rewrite Hl, !length_insert|].
    split.
    + intros x' c Hx' Hc. destruct (decide (x' = x)) as [-> | Hne].
      * rewrite Hout by lia. fold s.
        assert (c = 0 ∨ c = 1 ∨ c = 2) as [-> | [-> | ->]] by lia.
        -- rewrite list_lookup_insert_ne by lia.
           rewrite list_lookup_insert_ne by lia.
           rewrite list_lookup_insert_eq by lia.
           rewrite <- Hb2. f_equal. lia.
        -- rewrite list_lookup_insert_ne by lia.
           rewrite list_lookup_insert_eq by (rewrite !length_insert; lia).
           rewrite <- Hb1. f_equal. lia.
        -- rewrite list_lookup_insert_eq by (rewrite !length_insert; lia).
           rewrite <- Hb0. f_equal. lia.
      * apply Hin; lia.
    + intros j Hj. rewrite Hout by lia.
      rewrite !list_lookup_insert_ne by lia. done.
Qed.

Section encoder_rows_wrapped.

Variables (w h rs : Z) (px : list byte).

Hypothesis Hw : 0 ≤ w.
Hypothesis Hrs : 3 * w ≤ rs.
Hypothesis Hmax : w * 3 ≤ 2 ^ 32.
Hypothesis Hh : 0 ≤ h.
Hypothesis Hh32 : h < 2 ^ 32.
Hypothesis Hpx : w * h * 3 ≤ Z.of_nat (length px).

(** The rows the encoder appends to the headers whenever the buffer holds
    the image, whether the source index wraps around or not. *)
Lemma save_rows_loop_wrapped :
  ∀ (n : nat) (y : Z) (out : list byte),
    0 ≤ y → y + Z.of_nat n = h →
    ∃ rows : list byte,
      save_rows_loop n y w h rs px out = Ret (out ++ rows) ∧
      Z.of_nat (length rows) = Z.of_nat n * rs ∧
      (∀ y' x c, y ≤ y' < h → 0 ≤ x < w → 0 ≤ c < 3 →
         rows !! Z.to_nat ((y' - y) * rs + x * 3 + c)
         = px !! Z.to_nat (mul32 (add32 (mul32 (h - 1 - y') w) x) 3 + 2 - c)) ∧
      (∀ y' j, y ≤ y' < h → w * 3 ≤ j < rs →
         rows !! Z.to_nat ((y' - y) * rs + j) = Some x00).
Proof.
  intros n.
  induction n as [|n IH]; intros y out Hy Hn.
  - exists []. rewrite app_nil_r. split; [done|]. split; [cbn; lia|].
    split; intros; lia.
  - cbn [save_rows_loop].
    assert (sub32 (sub32 h 1) y = h - 1 - y) as -> by by unwrap.
    assert (add32 y 1 = y + 1) as -> by by unwrap.
    edestruct (save_row_loop_wrapped w (h - 1 - y) px) with
      (n := Z.to_nat w) (x := 0) (row := replicate (Z.to_nat rs) x00)
      as (row & -> & Hl1 & Hin1 & Hout1);
      [lia | intros x Hx; apply (save_src_idx_in w h); lia
      | lia | lia | rewrite length_replicate; lia |].
    rewrite length_replicate in Hl1.
    cbn [exec_bind].
    edestruct (IH (y + 1) (out ++ row)) as (rows & -> & Hl & Hin & Hpad);
      [lia | lia |].
    exists (row ++ rows). split; [by rewrite app_assoc|].
    split; [rewrite length_app; nia|]. split.
    + intros y' x c Hy' Hx Hc. destruct (decide (y' = y)) as [-> | Hne].
      * rewrite lookup_app_l by nia.
        replace ((y - y) * rs + x * 3 + c) with (x * 3 + c) by lia.
        apply Hin1; lia.
      * assert (rs ≤ (y' - y) * rs) by nia.
        rewrite lookup_app_r by lia. rewrite <- Hin by lia. f_equal. lia.
    + intros y' j Hy' Hj. destruct (decide (y' = y)) as [-> | Hne].
      * rewrite lookup_app_l by nia.
        rewrite Hout1 by lia. apply lookup_replicate_2. lia.
      * assert (rs ≤ (y' - y) * rs) by nia.
        rewrite lookup_app_r by lia. rewrite <- (Hpad y' j) by lia.
        f_equal. lia.
Qed.

End encoder_rows_wrapped.

(** The file the encoder forms for every image whose padded row fits
    [unsigned int] and whose buffer holds width * height * 3 bytes. *)
Lemma save_bmp_stream_wrapped w h px :
  0 ≤ w < 2 ^ 32 → 0 ≤ h < 2 ^ 32 → w * 3 + 3 < 2 ^ 32 →
  w * h * 3 ≤ Z.of_nat (length px) →
  ∃ rows : list byte,
    save_bmp_stream w h px
    = Ret (write_file_header (save_file_header w h) ++
           write_info_header (save_info_header w h) ++ rows) ∧
    Z.of_nat (length rows) = h * row_size_of w ∧
    (∀ i x c, 0 ≤ i < h → 0 ≤ x < w → 0 ≤ c < 3 →
       rows !! Z.to_nat (i * row_size_of w + x * 3 + c)
       = px !! Z.to_nat (mul32 (add32 (mul32 (h - 1 - i) w) x) 3 + 2 - c)) ∧
    (∀ i j, 0 ≤ i < h → w * 3 ≤ j < row_size_of w →
       rows !! Z.to_nat (i * row_size_of w + j) = Some x00).
Proof.
  intros Hw Hh Hf1 Hpx.
  pose proof (round4_bounds (w * 3)) as Hr4.
  rewrite <- row_size_of_small in Hr4 by lia.
  unfold save_bmp_stream. rewrite (usz_small (row_size_of w)) by lia.
  edestruct (save_rows_loop_wrapped w h (row_size_of w) px)
    with (n := Z.to_nat h) (y := 0)
    as (rows & -> & Hl & Hin & Hpad); [lia .. |].
  rewrite Z2Nat.id in Hl by lia.
  exists rows. split; [by rewrite <- app_assoc|]. split; [done|]. split.
  - intros i x c Hi Hx Hc. rewrite <- Hin by lia. f_equal. lia.
  - intros i j Hi Hj. rewrite <- (Hpad i j) by lia. f_equal. lia.
Qed.

Lemma index_decompose w h j :
  0 < w → 0 ≤ j < w * h * 3 →
  ∃ t x c, 0 ≤ t < h ∧ 0 ≤ x < w ∧ 0 ≤ c < 3 ∧ j = (t * w + x) * 3 + c.
Proof.
  intros Hw Hj.
  pose proof (Z.div_mod j 3 ltac:(lia)) as E3.
  pose proof (Z.mod_pos_bound j 3 ltac:(lia)) as B3.
  pose proof (Z.div_mod (j / 3) w ltac:(lia)) as Ew.
  pose proof (Z.mod_pos_bound (j / 3) w ltac:(lia)) as Bw.
  exists (j / 3 / w), ((j / 3) mod w), (j mod 3).
  assert (0 ≤ j / 3 / w) by (apply Z.div_pos; [apply Z.div_pos|]; lia).
  split; [split; [lia | nia] |]. split; [lia|]. split; [lia|].
  rewrite Z.mul_comm in Ew. lia.
Qed.

Lemma i32_u32_i32 z : 0 ≤ z < 2 ^ 31 → i32 (u32 (i32 z)) = z.
Proof.
  intros H. rewrite (i32_small z) by lia. rewrite u32_small by lia.
  apply i32_small. lia.
Qed.

(** The file the encoder writes is one the decoder accepts, and decodes
    to the image it came from. *)
Lemma save_load_stream w h px :
  0 < w < 2 ^ 31 → 0 < h < 2 ^ 31 → fits_unsigned w h →
  Z.of_nat (length px) = w * h * 3 →
  ∃ out : list byte,
    save_bmp_stream w h px = Ret out ∧
    load_bmp_stream (stream_of out)
    = Ret {| width := w; height := h; pixels := Some px |}.
Proof.
  intros Hw Hh Hfit Hlen.
  destruct (save_bmp_stream_spec w h px) as (rows & Hsave & Hl & Hin & _);
    [lia | lia | done | lia |].
  eexists. split; [exact Hsave|].
  set (out := write_file_header (save_file_header w h) ++
              write_info_header (save_info_header w h) ++ rows).
  pose proof Hfit as [Hf1 Hf2].
  pose proof (round4_bounds (w * 3)) as Hr4.
  rewrite <- row_size_of_small in Hr4 by lia.
  assert (0 ≤ h * row_size_of w) as Hpos by nia.
  assert (bfType (file_header_of out) = 0x4D42 ∧
          bfOffBits (file_header_of out) = 54) as [Hty Hoff].
  { subst out. rewrite read_write_file_header. done. }
  assert (biWidth (info_header_of out) = w ∧
          biHeight (info_header_of out) = h ∧
          biBitCount (info_header_of out) = 24 ∧
          biCompression (info_header_of out) = 0) as (Hbw & Hbh & Hbc & Hco).
  { subst out. rewrite read_write_info_header.
    cbn [biWidth biHeight biBitCount biCompression save_info_header].
    rewrite !i32_u32_i32 by lia. done. }
  assert (Z.of_nat (length out) = 54 + h * row_size_of w) as Hlo.
  { subst out. rewrite !length_app, length_write_file_header,
      length_write_info_header. lia. }
  destruct (load_bmp_stream_pixels out) as (px' & Hload & Hl' & Hpix).
  { unfold decodable. rewrite Hty, Hoff, Hbw, Hbh, Hbc, Hco.
    rewrite Z.abs_eq by lia. repeat split; try lia; try done. }
  rewrite Hbw, Hbh in Hload, Hl', Hpix. rewrite Z.abs_eq in * by lia.
  rewrite Hload. do 3 f_equal.
  rewrite Hoff in Hpix.
  apply list_eq. intros j.
  destruct (decide (Z.of_nat j < w * h * 3)) as [Hj | Hj].
  - destruct (index_decompose w h (Z.of_nat j)) as (t & x & c & Ht & Hx & Hc & E);
      [lia | lia |].
    specialize (Hpix (h - 1 - t) x c).
    rewrite bool_decide_eq_false_2 in Hpix by lia.
    replace (h - 1 - (h - 1 - t)) with t in Hpix by lia.
    rewrite <- E, Nat2Z.id in Hpix. rewrite Hpix by lia.
    subst out.
    assert (0 ≤ (h - 1 - t) * row_size_of w) by nia.
    rewrite lookup_app_r by (rewrite length_write_file_header; lia).
    rewrite lookup_app_r by
      (rewrite length_write_file_header, length_write_info_header; lia).
    rewrite length_write_file_header, length_write_info_header.
    specialize (Hin (h - 1 - t) x (2 - c)).
    replace (h - 1 - (h - 1 - t)) with t in Hin by lia.
    replace (Z.to_nat (54 + (h - 1 - t) * row_size_of w + x * 3 + 2 - c)
             - 14 - 40)%nat
      with (Z.to_nat ((h - 1 - t) * row_size_of w + x * 3 + (2 - c)))
      by lia.
    rewrite Hin by lia. f_equal. lia.
  - rewrite !lookup_ge_None_2 by lia. done.
Qed.

(** * The claims *)

(** ** Round trip *)

Lemma openf_load_bmp_stream (fs : gmap string (list byte)) path data :
  fs !! path = Some data →
  openf_load_bmp fs (Some path) true = load_bmp_stream (stream_of data).
Proof. intros H. unfold openf_load_bmp, fopen_rb. by rewrite H. Qed.

Lemma fits_unsigned_4096 w h :
  1 ≤ w ≤ 4096 → 1 ≤ h ≤ 4096 → fits_unsigned w h.
Proof. intros Hw Hh. split; [lia | nia]. Qed.

(** C1. Round trip: for every image whose width and height are in
    [1, 4096] and whose pixel buffer holds exactly width * height * 3
    bytes, [openf_save_bmp] succeeds, and [openf_load_bmp] on the file it
    wrote succeeds with an image of the same width and height and the same
    pixel bytes. *)
Theorem save_load_roundtrip (fs : gmap string (list byte)) (path : string)
    (w h : Z) (px : list byte) :
  1 ≤ w ≤ 4096 → 1 ≤ h ≤ 4096 →
  Z.of_nat (length px) = w * h * 3 →
  let image := {| width := w; height := h; pixels := Some px |} in
  ∃ fs' : gmap string (list byte),
    openf_save_bmp fs (Some path) (Some image) = Ret fs' ∧
    openf_load_bmp fs' (Some path) true = Ret image.
Proof.
  intros Hw Hh Hlen image.
  destruct (save_load_stream w h px) as (out & Hsave & Hload);
    [lia | lia | by apply fits_unsigned_4096 | done |].
  exists (<[path := out]> fs). split.
  - unfold openf_save_bmp, image. cbn [pixels width height].
    by rewrite Hsave.
  - rewrite (openf_load_bmp_stream _ path out) by apply lookup_insert_eq.
    exact Hload.
Qed.

Lemma save_load_roundtrip_witness :
  ∃ fs' : gmap string (list byte),
    openf_save_bmp ∅ (Some "a.bmp"%string)
      (Some {| width := 2; height := 1;
               pixels := Some [x01; x02; x03; x04; x05; x06] |}) = Ret fs' ∧
    openf_load_bmp fs' (Some "a.bmp"%string) true
    = Ret {| width := 2; height := 1;
             pixels := Some [x01; x02; x03; x04; x05; x06] |}.
Proof.
  apply (save_load_roundtrip ∅ "a.bmp" 2 1 [x01; x02; x03; x04; x05; x06]);
    [lia | lia | reflexivity].
Defined.


(** ** Row order *)

Lemma swap_channels_spec (x : nat) :
  ∀ (l : list byte) (c : nat),
    (c < 3)%nat → (3 * x + 2 < length l)%nat →
    swap_channels l !! (3 * x + c)%nat = l !! (3 * x + 2 - c)%nat.
Proof.
  induction x as [|x IH]; intros l c Hc Hl;
    destruct l as [|b0 [|b1 [|b2 l]]]; cbn [length] in Hl; try lia.
  - destruct c as [|[|[|c]]]; try lia; reflexivity.
  - cbn [swap_channels].
    replace (3 * S x + c)%nat with (S (S (S (3 * x + c)))) by lia.
    replace (3 * S x + 2 - c)%nat with (S (S (S (3 * x + 2 - c)))) by lia.
    cbn [lookup list_lookup]. apply IH; lia.
Qed.

Lemma swap_channels_length (n : nat) :
  ∀ l : list byte, (length l ≤ n)%nat → length (swap_channels l) = length l.
Proof.
  induction n as [|n IH]; intros l Hl;
    destruct l as [|b0 [|b1 [|b2 l]]]; cbn [length] in *; try lia; try done.
  cbn [swap_channels length]. rewrite IH by lia. done.
Qed.

Lemma canonical_row_swap data px w h off rs i t :
  0 < w → 0 ≤ i → 0 ≤ t < h → 0 ≤ off → 0 ≤ rs →
  Z.of_nat (length px) = w * h * 3 →
  off + i * rs + w * 3 ≤ Z.of_nat (length data) →
  (∀ x c, 0 ≤ x < w → 0 ≤ c < 3 →
     px !! Z.to_nat ((t * w + x) * 3 + c)
     = data !! Z.to_nat (off + i * rs + x * 3 + 2 - c)) →
  canonical_row px w t = swap_channels (stored_row data off rs w i).
Proof.
  intros Hw Hi Ht Hoff Hrs Hlen Hdata Hpix.
  assert (0 ≤ i * rs) by nia.
  assert (t * (w * 3) + w * 3 ≤ w * h * 3) by nia.
  assert (0 ≤ t * (w * 3)) by nia.
  assert (length (stored_row data off rs w i) = Z.to_nat (w * 3)) as Hls
    by (unfold stored_row; rewrite length_take, length_drop; lia).
  assert (length (canonical_row px w t) = Z.to_nat (w * 3)) as Hlc
    by (unfold canonical_row; rewrite length_take, length_drop; lia).
  apply list_eq. intros k.
  destruct (decide (k < Z.to_nat (w * 3))%nat) as [Hk | Hk].
  - pose proof (Nat.div_mod_eq k 3) as Ek.
    pose proof (Nat.mod_upper_bound k 3 ltac:(lia)) as Bk.
    set (x := (k / 3)%nat) in *. set (c := (k mod 3)%nat) in *.
    rewrite Ek. rewrite swap_channels_spec by lia.
    unfold canonical_row, stored_row.
    rewrite !lookup_take_lt by lia. rewrite !lookup_drop.
    specialize (Hpix (Z.of_nat x) (Z.of_nat c) ltac:(lia) ltac:(lia)).
    replace (Z.to_nat (t * (w * 3)) + (3 * x + c))%nat
      with (Z.to_nat ((t * w + Z.of_nat x) * 3 + Z.of_nat c)) by lia.
    rewrite Hpix. f_equal. lia.
  - rewrite !lookup_ge_None_2; [done | |];
      rewrite ?swap_channels_length with (n := length (stored_row data off rs w i));
      lia.
Qed.

(** C2. Row order of the decoder: for every file the decoder accepts,
    decoding succeeds, and the [i]-th row stored in the file, with its
    channels reordered, is the row [i] of the canonical buffer when the
    stored height is negative (top-down), and the row
    [height_magnitude - 1 - i] when the stored height is positive
    (bottom-up). *)
Theorem load_row_destination (fs : gmap string (list byte)) (path : string)
    (data : list byte) :
  fs !! path = Some data → decodable data →
  let w := biWidth (info_header_of data) in
  let bh := biHeight (info_header_of data) in
  let h := Z.abs bh in
  let off := bfOffBits (file_header_of data) in
  let rs := row_size_of w in
  ∃ px : list byte,
    openf_load_bmp fs (Some path) true
    = Ret {| width := w; height := h; pixels := Some px |} ∧
    ∀ i, 0 ≤ i < h →
      (bh < 0 →
       canonical_row px w i = swap_channels (stored_row data off rs w i)) ∧
      (0 < bh →
       canonical_row px w (h - 1 - i)
       = swap_channels (stored_row data off rs w i)).
Proof.
  intros Hfs Hdec w bh h off rs.
  destruct (load_bmp_stream_pixels data Hdec) as (px & Hload & Hlen & Hpix).
  fold w bh h off rs in Hload, Hlen, Hpix.
  destruct Hdec as (_ & _ & _ & _ & Hw & Hh & [Hf1 Hf2] & Hbytes).
  fold w bh h off rs in Hw, Hh, Hf1, Hf2, Hbytes.
  pose proof (file_header_off_range data) as Hoff. fold off in Hoff.
  pose proof (round4_bounds (w * 3)) as Hr4.
  rewrite <- row_size_of_small in Hr4 by lia. fold rs in Hr4.
  exists px. split; [by rewrite (openf_load_bmp_stream fs path data)|].
  intros i Hi.
  assert (off + i * rs + w * 3 ≤ Z.of_nat (length data)) by nia.
  split; intros Hbh.
  - apply (canonical_row_swap data px w h off rs i i); try lia.
    intros x c Hx Hc. specialize (Hpix i x c Hi Hx Hc).
    by rewrite bool_decide_eq_true_2 in Hpix by done.
  - apply (canonical_row_swap data px w h off rs i (h - 1 - i)); try lia.
    intros x c Hx Hc. specialize (Hpix i x c Hi Hx Hc).
    by rewrite bool_decide_eq_false_2 in Hpix by lia.
Qed.


Lemma load_row_destination_witness :
  ∃ px : list byte,
    openf_load_bmp {[ "t.bmp"%string := bmp_1x2_top_down ]}
      (Some "t.bmp"%string) true
    = Ret {| width := 1; height := 2; pixels := Some px |} ∧
    canonical_row px 1 0
    = swap_channels (stored_row bmp_1x2_top_down 54 4 1 0).
Proof.
  destruct (load_row_destination {[ "t.bmp"%string := bmp_1x2_top_down ]}
              "t.bmp" bmp_1x2_top_down) as (px & Hload & Hrows).
  - reflexivity.
  - unfold decodable, fits_unsigned. vm_compute.
    repeat split; try done; lia.
  - exists px. split; [exact Hload|].
    apply (Hrows 0); [vm_compute; split; [discriminate | reflexivity]
                     | vm_compute; reflexivity].
Defined.

(** ** Channel order *)

Lemma save_bmp_stream_openf (fs : gmap string (list byte)) path w h px out :
  save_bmp_stream w h px = Ret out →
  openf_save_bmp fs (Some path)
    (Some {| width := w; height := h; pixels := Some px |})
  = Ret (<[path := out]> fs).
Proof. intros H. unfold openf_save_bmp. cbn [pixels width height]. by rewrite H. Qed.

(** Channel order where no size wraps around: for every pixel of every
    file the decoder accepts, byte 0 of the canonical pixel is byte 2 of
    the stored pixel, byte 1 is byte 1 and byte 2 is byte 0; for every
    pixel of every image whose sizes fit [unsigned int], the stored pixel
    is formed by the inverse exchange;
    the file of one pixel stored as 0x10, 0x20, 0x30 decodes to 0x30, 0x20,
    0x10, and the image of one pixel 0x30, 0x20, 0x10 is stored as 0x10,
    0x20, 0x30. *)
Theorem channel_reorder :
  (∀ (fs : gmap string (list byte)) (path : string) (data : list byte),
     fs !! path = Some data → decodable data →
     let w := biWidth (info_header_of data) in
     let bh := biHeight (info_header_of data) in
     let h := Z.abs bh in
     let off := bfOffBits (file_header_of data) in
     let rs := row_size_of w in
     ∃ px : list byte,
       openf_load_bmp fs (Some path) true
       = Ret {| width := w; height := h; pixels := Some px |} ∧
       ∀ i x, 0 ≤ i < h → 0 ≤ x < w →
         let src := off + i * rs + x * 3 in
         let dst := ((if bool_decide (bh < 0) then i else h - 1 - i) * w + x)
                    * 3 in
         px !! Z.to_nat (dst + 0) = data !! Z.to_nat (src + 2) ∧
         px !! Z.to_nat (dst + 1) = data !! Z.to_nat (src + 1) ∧
         px !! Z.to_nat (dst + 2) = data !! Z.to_nat (src + 0)) ∧
  (∀ (fs : gmap string (list byte)) (path : string) (w h : Z)
     (px : list byte),
     0 ≤ w < 2 ^ 32 → 0 ≤ h < 2 ^ 32 → fits_unsigned w h →
     w * h * 3 ≤ Z.of_nat (length px) →
     ∃ out : list byte,
       openf_save_bmp fs (Some path)
         (Some {| width := w; height := h; pixels := Some px |})
       = Ret (<[path := out]> fs) ∧
       ∀ i x, 0 ≤ i < h → 0 ≤ x < w →
         let src := ((h - 1 - i) * w + x) * 3 in
         let dst := 54 + i * row_size_of w + x * 3 in
         out !! Z.to_nat (dst + 0) = px !! Z.to_nat (src + 2) ∧
         out !! Z.to_nat (dst + 1) = px !! Z.to_nat (src + 1) ∧
         out !! Z.to_nat (dst + 2) = px !! Z.to_nat (src + 0)) ∧
  openf_load_bmp {[ "p.bmp"%string := bmp_1x1 ]} (Some "p.bmp"%string) true
  = Ret {| width := 1; height := 1; pixels := Some [x30; x20; x10] |} ∧
  (∃ out : list byte,
     openf_save_bmp ∅ (Some "p.bmp"%string)
       (Some {| width := 1; height := 1; pixels := Some [x30; x20; x10] |})
     = Ret {[ "p.bmp"%string := out ]} ∧
     drop 54 out = [x10; x20; x30; x00]).
Proof.
  split; [|split; [|split]].
  - intros fs path data Hfs Hdec w bh h off rs.
    destruct (load_bmp_stream_pixels data Hdec) as (px & Hload & _ & Hpix).
    fold w bh h off rs in Hload, Hpix.
    exists px. split; [by rewrite (openf_load_bmp_stream fs path data)|].
    intros i x Hi Hx src dst. subst src dst.
    pose proof (Hpix i x 0 Hi Hx ltac:(lia)) as H0.
    pose proof (Hpix i x 1 Hi Hx ltac:(lia)) as H1.
    pose proof (Hpix i x 2 Hi Hx ltac:(lia)) as H2.
    rewrite H0, H1, H2. repeat split; f_equal; lia.
  - intros fs path w h px Hw Hh Hfit Hlen.
    destruct (save_bmp_stream_spec w h px Hw Hh Hfit Hlen)
      as (rows & Hsave & Hl & Hin & _).
    eexists. split; [by apply save_bmp_stream_openf|].
    intros i x Hi Hx src dst. subst src dst.
    pose proof Hfit as [Hf1 _].
    pose proof (round4_bounds (w * 3)) as Hr4.
    rewrite <- row_size_of_small in Hr4 by lia.
    assert (0 ≤ i * row_size_of w) by nia.
    assert (∀ c, 0 ≤ c < 3 →
              (write_file_header (save_file_header w h) ++
               write_info_header (save_info_header w h) ++ rows)
              !! Z.to_nat (54 + i * row_size_of w + x * 3 + c)
              = px !! Z.to_nat (((h - 1 - i) * w + x) * 3 + 2 - c)) as Hout.
    { intros c Hc.
      rewrite lookup_app_r by (rewrite length_write_file_header; lia).
      rewrite lookup_app_r by
        (rewrite length_write_file_header, length_write_info_header; lia).
      rewrite length_write_file_header, length_write_info_header.
      rewrite <- (Hin i x c) by lia. f_equal. lia. }
    rewrite (Hout 0), (Hout 1), (Hout 2) by lia.
    repeat split; f_equal; lia.
  - vm_compute. reflexivity.
  - eexists. split; [vm_compute; reflexivity|]. vm_compute. reflexivity.
Qed.

Lemma channel_reorder_witness :
  (∃ px : list byte,
     openf_load_bmp {[ "p.bmp"%string := bmp_1x1 ]} (Some "p.bmp"%string) true
     = Ret {| width := 1; height := 1; pixels := Some px |} ∧
     px !! 0%nat = bmp_1x1 !! 56%nat) ∧
  (∃ out : list byte,
     openf_save_bmp ∅ (Some "p.bmp"%string)
       (Some {| width := 1; height := 1; pixels := Some [x30; x20; x10] |})
     = Ret (<["p.bmp"%string := out]> ∅) ∧
     out !! 54%nat = Some x10).
Proof.
  destruct channel_reorder as (Hload & Hsave & _).
  split.
  - destruct (Hload {[ "p.bmp"%string := bmp_1x1 ]} "p.bmp"%string bmp_1x1)
      as (px & H1 & H2).
    + reflexivity.
    + unfold decodable, fits_unsigned. vm_compute.
      repeat split; try done; lia.
    + exists px. split; [exact H1|].
      assert (0 ≤ 0 < Z.abs (biHeight (info_header_of bmp_1x1))) as Hi
        by (vm_compute; split; [discriminate | reflexivity]).
      assert (0 ≤ 0 < biWidth (info_header_of bmp_1x1)) as Hx
        by (vm_compute; split; [discriminate | reflexivity]).
      destruct (H2 0 0 Hi Hx) as (H3 & _).
      vm_compute in H3. vm_compute. exact H3.
  - destruct (Hsave ∅ "p.bmp"%string 1 1 [x30; x20; x10])
      as (out & H1 & H2); [lia | lia | split; lia | cbn; lia |].
    exists out. split; [exact H1|].
    destruct (H2 0 0) as (H3 & _); [lia | lia |]. exact H3.
Defined.

(** C3 does not hold of the encoder at every pixel.  The source index
    [(src_y * width + x) * 3] is computed on [unsigned int] before it
    becomes a [size_t].  For the image of one column and 1431655767 rows,
    whose buffer holds all its 4294967301 bytes, the first row written is
    the row 1431655766 of the image: its pixel is at the index 4294967298
    and has the bytes 0, 0, 0.  The index wraps around to 2, and
    [openf_save_bmp] returns with a file whose first pixel holds 5, 4, 3,
    the bytes of the buffer at the indices 4, 3 and 2. *)
Theorem save_source_index_wraps :
  Z.of_nat (length tall_image_pixels) = 1 * 1431655767 * 3 ∧
  (tall_image_pixels !! Z.to_nat (((1431655767 - 1 - 0) * 1 + 0) * 3 + 0)
     = Some x00 ∧
   tall_image_pixels !! Z.to_nat (((1431655767 - 1 - 0) * 1 + 0) * 3 + 1)
     = Some x00 ∧
   tall_image_pixels !! Z.to_nat (((1431655767 - 1 - 0) * 1 + 0) * 3 + 2)
     = Some x00) ∧
  mul32 (add32 (mul32 (1431655767 - 1 - 0) 1) 0) 3 = 2 ∧
  ∃ out : list byte,
    openf_save_bmp ∅ (Some "t.bmp"%string) (Some tall_image)
    = Ret (<["t.bmp"%string := out]> ∅) ∧
    out !! 54%nat = Some x05 ∧
    out !! 55%nat = Some x04 ∧
    out !! 56%nat = Some x03.
Proof.
  assert (Z.of_nat (length tall_image_pixels) = 1 * 1431655767 * 3) as Hlen.
  { unfold tall_image_pixels. rewrite length_app, length_replicate.
    cbn [length]. lia. }
  split; [exact Hlen|]. split.
  { unfold tall_image_pixels.
    split; [|split]; (rewrite lookup_app_r by (cbn [length]; lia));
      apply lookup_replicate_2; cbn [length]; lia. }
  split; [reflexivity|].
  destruct (save_bmp_stream_wrapped 1 1431655767 tall_image_pixels)
    as (rows & Hsave & _ & Hin & _); [lia | lia | lia | lia |].
  eexists. split; [apply save_bmp_stream_openf; exact Hsave|].
  assert (∀ c : Z, 0 ≤ c < 3 →
            (write_file_header (save_file_header 1 1431655767) ++
             write_info_header (save_info_header 1 1431655767) ++ rows)
            !! Z.to_nat (54 + c)
            = tall_image_pixels !! Z.to_nat (4 - c)) as Hout.
  { intros c Hc.
    rewrite lookup_app_r by (rewrite length_write_file_header; lia).
    rewrite lookup_app_r by
      (rewrite length_write_file_header, length_write_info_header; lia).
    rewrite length_write_file_header, length_write_info_header.
    pose proof (Hin 0 0 c ltac:(lia) ltac:(lia) Hc) as H.
    change (mul32 (add32 (mul32 (1431655767 - 1 - 0) 1) 0) 3) with 2 in H.
    change (row_size_of 1) with 4 in H.
    etransitivity; [|etransitivity; [exact H|]]; f_equal; lia. }
  split; [exact (Hout 0 ltac:(lia))|].
  split; [exact (Hout 1 ltac:(lia)) | exact (Hout 2 ltac:(lia))].
Qed.

(** ** Rejections *)

Lemma u8_inj b b' : u8 b = u8 b' → b = b'.
Proof. intros H. rewrite <- (byte_of_u8 b), <- (byte_of_u8 b'). by rewrite H. Qed.

(** The signature field holds 0x4D42 exactly when the file starts with
    the two characters B and M. *)
Lemma signature_bytes data :
  (2 ≤ length data)%nat →
  bfType (file_header_of data) = 0x4D42 ↔ take 2 data = [x42; x4d].
Proof.
  intros Hlen. destruct data as [|b0 [|b1 data]]; cbn [length] in Hlen; try lia.
  change (bfType (file_header_of (b0 :: b1 :: data)))
    with (u8 b0 + 256 * (u8 b1 + 256 * 0)).
  cbn [take]. pose proof (u8_range b0). pose proof (u8_range b1). split.
  - intros E. assert (u8 b0 = u8 x42 ∧ u8 b1 = u8 x4d) as [E0 E1]
      by (change (u8 x42) with 66; change (u8 x4d) with 77; lia).
    apply u8_inj in E0, E1. by subst.
  - intros [= -> ->]. reflexivity.
Qed.

Lemma load_bmp_stream_signature data :
  (14 ≤ length data)%nat →
  bfType (file_header_of data) ≠ 0x4D42 →
  load_bmp_stream (stream_of data) = Fail OPENF_ERR_INVALID_FORMAT.
Proof.
  intros Hlen Hsig. unfold load_bmp_stream, stream_of, fread.
  cbn [f_data f_pos]. rewrite drop_0.
  assert (length (take sizeof_file_header data) = sizeof_file_header) as ->
    by (rewrite length_take; unfold sizeof_file_header; lia).
  case_decide as Hd; [done|]. clear Hd.
  fold (file_header_of data). by rewrite decide_True.
Qed.

(** C5, as the code has it: a file of fewer than 14 bytes makes
    [openf_load_bmp] fail with [OPENF_ERR_READ_FAILED]; a file of at least
    14 bytes whose first two bytes are not the characters B and M makes it
    fail with [OPENF_ERR_INVALID_FORMAT]. *)
Theorem load_file_header_errors (fs : gmap string (list byte))
    (path : string) (data : list byte) :
  fs !! path = Some data →
  ((length data < 14)%nat →
   openf_load_bmp fs (Some path) true = Fail OPENF_ERR_READ_FAILED) ∧
  ((14 ≤ length data)%nat → take 2 data ≠ [x42; x4d] →
   openf_load_bmp fs (Some path) true = Fail OPENF_ERR_INVALID_FORMAT).
Proof.
  intros Hfs. rewrite (openf_load_bmp_stream fs path data Hfs). split.
  - apply load_bmp_stream_short.
  - intros Hlen Hsig. apply load_bmp_stream_signature; [done|].
    rewrite signature_bytes by lia. done.
Qed.

(** A file of three bytes, and a file of fourteen bytes that starts with
    the characters X and Y. *)
Lemma load_file_header_errors_witness :
  openf_load_bmp {[ "s.bmp"%string := [x42; x4d; x00] ]}
    (Some "s.bmp"%string) true = Fail OPENF_ERR_READ_FAILED ∧
  openf_load_bmp {[ "x.bmp"%string := [x58; x59] ++ replicate 12 x00 ]}
    (Some "x.bmp"%string) true = Fail OPENF_ERR_INVALID_FORMAT.
Proof.
  split.
  - apply (load_file_header_errors {[ "s.bmp"%string := [x42; x4d; x00] ]}
             "s.bmp" [x42; x4d; x00]); [reflexivity | cbn; lia].
  - apply (load_file_header_errors
             {[ "x.bmp"%string := [x58; x59] ++ replicate 12 x00 ]}
             "x.bmp" ([x58; x59] ++ replicate 12 x00));
      [reflexivity | cbn; lia | cbn; discriminate].
Defined.

(** C5 as the specification states it does not hold: a file of three
    bytes, which starts with the signature, is refused with
    [OPENF_ERR_READ_FAILED], not with [OPENF_ERR_INVALID_FORMAT]. *)
Lemma load_short_file_counterexample :
  (length [x42; x4d; x00] < 14)%nat ∧
  openf_load_bmp {[ "s.bmp"%string := [x42; x4d; x00] ]}
    (Some "s.bmp"%string) true ≠ Fail OPENF_ERR_INVALID_FORMAT.
Proof. split; [cbn; lia | vm_compute; discriminate]. Qed.

(** C6. Unsupported formats: for every file whose two headers can be read
    and whose signature is right, a bit count other than 24 or a
    compression other than 0 makes [openf_load_bmp] fail with
    [OPENF_ERR_UNSUPPORTED]; nothing is asked of the width and the height,
    which are examined only afterwards. *)
Theorem load_unsupported (fs : gmap string (list byte)) (path : string)
    (data : list byte) :
  fs !! path = Some data →
  (54 ≤ length data)%nat →
  take 2 data = [x42; x4d] →
  biBitCount (info_header_of data) ≠ 24 ∨
  biCompression (info_header_of data) ≠ 0 →
  openf_load_bmp fs (Some path) true = Fail OPENF_ERR_UNSUPPORTED.
Proof.
  intros Hfs Hlen Hsig Hfmt.
  rewrite (openf_load_bmp_stream fs path data Hfs).
  rewrite load_bmp_stream_headers by done. cbn zeta.
  apply signature_bytes in Hsig; [|lia].
  rewrite decide_False by (by intros []).
  by rewrite decide_True.
Qed.

(** A file of 8 bits per pixel whose width is 0. *)
Lemma load_unsupported_witness :
  openf_load_bmp
    {[ "u.bmp"%string :=
         bmp_file 54 (with_unchecked_fields
                        {| biSize := 40; biWidth := 0; biHeight := 1;
                           biPlanes := 1; biBitCount := 8;
                           biCompression := 0; biSizeImage := 0;
                           biXPelsPerMeter := 0; biYPelsPerMeter := 0;
                           biClrUsed := 0; biClrImportant := 0 |} 40 1 0)
           [] ]}
    (Some "u.bmp"%string) true = Fail OPENF_ERR_UNSUPPORTED.
Proof.
  eapply load_unsupported;
    [reflexivity | vm_compute; lia | reflexivity
    | left; vm_compute; discriminate].
Defined.

(** The loops of the decoder return no error code but
    [OPENF_ERR_READ_FAILED]. *)
Lemma load_row_loop_no_fail n :
  ∀ x w ty row px e, load_row_loop n x w ty row px ≠ Fail e.
Proof.
  induction n as [|n IH]; intros x w ty row px e; [done|].
  cbn [load_row_loop]. unfold load8, store8.
  repeat (first [ destruct (row !! _) | case_decide ];
          cbn [exec_bind]; try done).
Qed.

Lemma load_rows_loop_fail n :
  ∀ y w h rs td f px e,
    load_rows_loop n y w h rs td f px = Fail e → e = OPENF_ERR_READ_FAILED.
Proof.
  induction n as [|n IH]; intros y w h rs td f px e; [done|].
  cbn [load_rows_loop]. unfold fread. case_decide; [by intros [= <-]|].
  destruct (load_row_loop _ _ _ _ _ _) eqn:E; cbn [exec_bind].
  - apply IH.
  - by apply load_row_loop_no_fail in E.
  - done.
Qed.

(** C7. Dimension check: for every file that passes the checks of the
    bit count and of the compression, [openf_load_bmp] fails with
    [OPENF_ERR_INVALID_FORMAT] exactly when the stored width is not
    positive or the stored height is zero; an image it returns has the
    stored width and the magnitude of the stored height; and a file with a
    negative stored height that is otherwise decodable is decoded, its
    rows taken top-down. *)
Theorem load_dimension_check (fs : gmap string (list byte)) (path : string)
    (data : list byte) :
  fs !! path = Some data →
  (54 ≤ length data)%nat →
  take 2 data = [x42; x4d] →
  biBitCount (info_header_of data) = 24 →
  biCompression (info_header_of data) = 0 →
  let w := biWidth (info_header_of data) in
  let bh := biHeight (info_header_of data) in
  (openf_load_bmp fs (Some path) true = Fail OPENF_ERR_INVALID_FORMAT
   ↔ w ≤ 0 ∨ bh = 0) ∧
  (∀ img, openf_load_bmp fs (Some path) true = Ret img →
     width img = w ∧ height img = Z.abs bh) ∧
  (bh < 0 → decodable data →
   ∃ px : list byte,
     openf_load_bmp fs (Some path) true
     = Ret {| width := w; height := - bh; pixels := Some px |} ∧
     ∀ i x c, 0 ≤ i < - bh → 0 ≤ x < w → 0 ≤ c < 3 →
       px !! Z.to_nat ((i * w + x) * 3 + c)
       = data !! Z.to_nat (bfOffBits (file_header_of data)
                           + i * row_size_of w + x * 3 + 2 - c)).
Proof.
  intros Hfs Hlen Hsig Hbc Hco w bh.
  rewrite (openf_load_bmp_stream fs path data Hfs).
  apply signature_bytes in Hsig; [|lia].
  pose proof (info_header_ranges data) as [Hwr Hhr]. fold w in Hwr. fold bh in Hhr.
  split; [|split].
  - rewrite load_bmp_stream_headers by done. cbn zeta. fold w bh.
    rewrite decide_False by (by intros []).
    rewrite decide_False by (intros [|]; done).
    case_decide as Hd; [done|]. split; [|done].
    destruct (load_rows_loop _ _ _ _ _ _ _ _) eqn:E; cbn [exec_bind];
      [done | | done].
    apply load_rows_loop_fail in E. by subst.
  - intros img. rewrite load_bmp_stream_headers by done. cbn zeta.
    fold w bh.
    rewrite decide_False by (by intros []).
    rewrite decide_False by (intros [|]; done).
    case_decide as Hd; [done|].
    destruct (load_rows_loop _ _ _ _ _ _ _ _); cbn [exec_bind]; try done.
    intros [= <-]. cbn [width height].
    rewrite decoded_height_abs by done. rewrite u32_small by lia. done.
  - intros Hneg Hdec.
    destruct (load_bmp_stream_pixels data Hdec) as (px & Hload & _ & Hpix).
    fold w bh in Hload, Hpix. rewrite Z.abs_neq in Hload, Hpix by lia.
    exists px. split; [done|]. intros i x c Hi Hx Hc.
    specialize (Hpix i x c Hi Hx Hc).
    by rewrite bool_decide_eq_true_2 in Hpix by done.
Qed.

Lemma load_dimension_check_witness :
  ∃ px : list byte,
    openf_load_bmp {[ "t.bmp"%string := bmp_1x2_top_down ]}
      (Some "t.bmp"%string) true
    = Ret {| width := 1; height := 2; pixels := Some px |} ∧
    px !! 0%nat = bmp_1x2_top_down !! 56%nat.
Proof.
  destruct (load_dimension_check {[ "t.bmp"%string := bmp_1x2_top_down ]}
              "t.bmp" bmp_1x2_top_down) as (_ & _ & Htd);
    [reflexivity | vm_compute; lia | reflexivity | reflexivity | reflexivity |].
  destruct Htd as (px & Hload & Hpix).
  - vm_compute. reflexivity.
  - unfold decodable, fits_unsigned. vm_compute.
    repeat split; try done; lia.
  - exists px. split; [exact Hload|].
    assert (0 ≤ 0 < - biHeight (info_header_of bmp_1x2_top_down)) as Hi
      by (vm_compute; split; [discriminate | reflexivity]).
    assert (0 ≤ 0 < biWidth (info_header_of bmp_1x2_top_down)) as Hx
      by (vm_compute; split; [discriminate | reflexivity]).
    assert (0 ≤ 0 < 3) as Hc by lia.
    pose proof (Hpix 0 0 0 Hi Hx Hc) as H0.
    vm_compute in H0. vm_compute. exact H0.
Defined.

(** ** The headers the encoder writes *)

Lemma u32_u32 z : u32 (u32 z) = u32 z.
Proof. unfold u32. apply Z.mod_mod. lia. Qed.

Lemma i32_u32 z : i32 (u32 z) = i32 z.
Proof. unfold i32, u32. by rewrite Z.add_mod_idemp_l by lia. Qed.

Lemma i32_i32 z : i32 (i32 z) = i32 z.
Proof. apply i32_small, i32_range. Qed.

Lemma row_size_of_range w : 0 ≤ row_size_of w < 2 ^ 32.
Proof. apply u32_range. Qed.

(** The fields a decoder finds in the 54 bytes the encoder writes first. *)
Lemma save_headers_read w h rest :
  0 ≤ h < 2 ^ 32 →
  let out := write_file_header (save_file_header w h) ++
             write_info_header (save_info_header w h) ++ rest in
  let rs := row_size_of w in
  take 2 out = [x42; x4d] ∧
  bfSize (file_header_of out) = (14 + 40 + rs * h) mod 2 ^ 32 ∧
  bfOffBits (file_header_of out) = 54 ∧
  biSize (info_header_of out) = 40 ∧
  biWidth (info_header_of out) = i32 w ∧
  biHeight (info_header_of out) = i32 h ∧
  biPlanes (info_header_of out) = 1 ∧
  biBitCount (info_header_of out) = 24 ∧
  biCompression (info_header_of out) = 0 ∧
  biSizeImage (info_header_of out) = (rs * h) mod 2 ^ 32 ∧
  biXPelsPerMeter (info_header_of out) = 0 ∧
  biYPelsPerMeter (info_header_of out) = 0.
Proof.
  intros Hh out rs. pose proof (row_size_of_range w) as Hrs. fold rs in Hrs.
  assert (0 ≤ rs * h < 2 ^ 64 - 54) as Hprod by nia.
  subst out. rewrite read_write_file_header, read_write_info_header.
  cbn [bfSize bfOffBits biSize biWidth biHeight biPlanes biBitCount
       biCompression biSizeImage biXPelsPerMeter biYPelsPerMeter
       save_file_header save_info_header].
  fold rs. rewrite !u32_u32, !i32_u32, !i32_i32.
  rewrite (usz_small rs) by lia.
  unfold mulsz, addsz. rewrite (usz_small (rs * h)) by lia.
  change (usz (Z.of_nat sizeof_file_header + Z.of_nat sizeof_info_header))
    with 54.
  rewrite (usz_small (54 + rs * h)) by lia.
  repeat split.
Qed.

(** C8, as the code has it: for every image whose padded row
    width * 3 + 3 fits [unsigned int] and whose buffer holds
    width * height * 3 bytes, whether this product fits or not,
    [openf_save_bmp] succeeds and writes 54 + row_size * height bytes that
    start with the characters B and M; the size field holds
    14 + 40 + row_size * height reduced modulo 2^32, the offset field 54;
    the info header holds the size 40, 1 plane, 24 bits per pixel,
    compression 0, the image size row_size * height reduced modulo 2^32
    and zero resolutions; the height field holds the height of the image
    as it is, never negated, hence a positive number when the height is
    in [1, 2^31 - 1]; and the bytes of every row after its width * 3 pixel
    bytes are zero. *)
Theorem save_headers (fs : gmap string (list byte)) (path : string)
    (w h : Z) (px : list byte) :
  0 ≤ w < 2 ^ 32 → 0 ≤ h < 2 ^ 32 → w * 3 + 3 < 2 ^ 32 →
  w * h * 3 ≤ Z.of_nat (length px) →
  let rs := row_size_of w in
  ∃ out : list byte,
    openf_save_bmp fs (Some path)
      (Some {| width := w; height := h; pixels := Some px |})
    = Ret (<[path := out]> fs) ∧
    Z.of_nat (length out) = 54 + rs * h ∧
    take 2 out = [x42; x4d] ∧
    bfSize (file_header_of out) = (14 + 40 + rs * h) mod 2 ^ 32 ∧
    bfOffBits (file_header_of out) = 54 ∧
    biSize (info_header_of out) = 40 ∧
    biPlanes (info_header_of out) = 1 ∧
    biBitCount (info_header_of out) = 24 ∧
    biCompression (info_header_of out) = 0 ∧
    biSizeImage (info_header_of out) = (rs * h) mod 2 ^ 32 ∧
    biXPelsPerMeter (info_header_of out) = 0 ∧
    biYPelsPerMeter (info_header_of out) = 0 ∧
    biHeight (info_header_of out) = i32 h ∧
    (0 < h < 2 ^ 31 →
     biHeight (info_header_of out) = h ∧ 0 < biHeight (info_header_of out)) ∧
    (∀ i j, 0 ≤ i < h → w * 3 ≤ j < rs →
       out !! Z.to_nat (54 + i * rs + j) = Some x00).
Proof.
  intros Hw Hh Hfit Hlen rs.
  destruct (save_bmp_stream_wrapped w h px Hw Hh Hfit Hlen)
    as (rows & Hsave & Hl & _ & Hpad).
  fold rs in Hl, Hpad.
  destruct (save_headers_read w h rows Hh)
    as (Hsig & Hsz & Hoff & Hbs & _ & Hbh & Hpl & Hbc & Hco & Hsi & Hx & Hy).
  fold rs in Hsz, Hsi.
  eexists. split; [by apply save_bmp_stream_openf|].
  split; [rewrite !length_app, length_write_file_header,
            length_write_info_header; lia|].
  do 11 (split; [assumption|]).
  split; [intros Hpos; rewrite Hbh, i32_small by lia; lia|].
  intros i j Hi Hj. assert (0 ≤ i * rs) by nia.
  rewrite lookup_app_r by (rewrite length_write_file_header; lia).
  rewrite lookup_app_r by
    (rewrite length_write_file_header, length_write_info_header; lia).
  rewrite length_write_file_header, length_write_info_header.
  rewrite <- (Hpad i j) by lia. f_equal. lia.
Qed.

Lemma save_headers_witness :
  ∃ out : list byte,
    openf_save_bmp ∅ (Some "p.bmp"%string)
      (Some {| width := 1; height := 1; pixels := Some [x30; x20; x10] |})
    = Ret (<["p.bmp"%string := out]> ∅) ∧
    biHeight (info_header_of out) = 1 ∧
    out !! 57%nat = Some x00.
Proof.
  destruct (save_headers ∅ "p.bmp"%string 1 1 [x30; x20; x10])
    as (out & Hsave & _ & _ & _ & _ & _ & _ & _ & _ & _ & _ & _ & _ & Hh & Hpad);
    [lia | lia | lia | cbn; lia |].
  exists out. split; [exact Hsave|]. split.
  - destruct Hh as [Hh _]; [lia | exact Hh].
  - apply (Hpad 0 3); [lia | vm_compute; split; [discriminate | reflexivity]].
Defined.

(** C8 as the specification states it does not hold.  An image of height
    0 is accepted and its height field is written as 0, which is not
    positive; an image of 1 by 2^30 pixels is accepted and the size field
    of its file, which has 54 + 4 * 2^30 bytes, holds 54. *)
Lemma save_headers_counterexample :
  (∃ out : list byte,
     openf_save_bmp ∅ (Some "z.bmp"%string)
       (Some {| width := 1; height := 0; pixels := Some [] |})
     = Ret {[ "z.bmp"%string := out ]} ∧
     ¬ 0 < biHeight (info_header_of out)) ∧
  (∃ out : list byte,
     openf_save_bmp ∅ (Some "b.bmp"%string)
       (Some {| width := 1; height := 1073741824;
                pixels := Some (replicate (Z.to_nat 3221225472) x00) |})
     = Ret {[ "b.bmp"%string := out ]} ∧
     Z.of_nat (length out) = 14 + 40 + row_size_of 1 * 1073741824 ∧
     bfSize (file_header_of out) ≠ 14 + 40 + row_size_of 1 * 1073741824).
Proof.
  split.
  - eexists. split; [vm_compute; reflexivity|]. vm_compute. discriminate.
  - destruct (save_bmp_stream_spec 1 1073741824
                (replicate (Z.to_nat 3221225472) x00))
      as (rows & Hsave & Hl & _); [lia | lia | split; lia | |].
    { rewrite length_replicate. lia. }
    destruct (save_headers_read 1 1073741824 rows)
      as (_ & Hsz & _); [lia|].
    eexists. split; [by apply save_bmp_stream_openf|]. split.
    + rewrite !length_app, length_write_file_header,
        length_write_info_header. lia.
    + rewrite Hsz. change (row_size_of 1) with 4. vm_compute. discriminate.
Qed.

(** ** The offset of the pixel data *)

(** The rows the decoder reads depend on the file only through what it
    holds from the position of the stream on. *)
Lemma load_rows_loop_ext n :
  ∀ y w h rs td d1 p1 d2 p2 px,
    drop p1 d1 = drop p2 d2 →
    load_rows_loop n y w h rs td {| f_data := d1; f_pos := p1 |} px
    = load_rows_loop n y w h rs td {| f_data := d2; f_pos := p2 |} px.
Proof.
  induction n as [|n IH]; intros y w h rs td d1 p1 d2 p2 px Hd; [done|].
  cbn [load_rows_loop]. unfold fread. cbn [f_data f_pos]. rewrite Hd.
  case_decide; [done|].
  destruct (load_row_loop _ _ _ _ _ _); cbn [exec_bind]; try done.
  apply IH. rewrite <- !drop_drop. by rewrite Hd.
Qed.

Lemma bmp_file_headers off ih body :
  let data := bmp_file off ih body in
  (54 ≤ length data)%nat ∧
  bfType (file_header_of data) = 0x4D42 ∧
  bfOffBits (file_header_of data) = u32 off ∧
  biBitCount (info_header_of data) = biBitCount ih mod 2 ^ 16 ∧
  biCompression (info_header_of data) = u32 (biCompression ih) ∧
  biWidth (info_header_of data) = i32 (biWidth ih) ∧
  biHeight (info_header_of data) = i32 (biHeight ih).
Proof.
  intros data. subst data. unfold bmp_file.
  rewrite read_write_file_header, read_write_info_header.
  cbn [bfType bfOffBits biBitCount biCompression biWidth biHeight].
  rewrite !i32_u32.
  rewrite !length_app, length_write_file_header, length_write_info_header.
  repeat split. lia.
Qed.

Lemma drop_bmp_file off ih body :
  (54 ≤ off)%nat → drop off (bmp_file (Z.of_nat off) ih body)
                   = drop (off - 54) body.
Proof.
  intros H. unfold bmp_file.
  rewrite drop_app_ge by (rewrite length_write_file_header; lia).
  rewrite drop_app_ge by
    (rewrite length_write_file_header, length_write_info_header; lia).
  rewrite length_write_file_header, length_write_info_header.
  f_equal. lia.
Qed.

(** C9. Offset of the pixel data: for every file the decoder accepts,
    whatever offset its file header declares, the byte [c] of the pixel
    [x] of the [i]-th stored row is taken at the position
    declared offset + i * row_size + x * 3 + (2 - c) of the file; and a
    file with a gap between its headers and its rows, whose declared
    offset counts the gap, decodes as the file without the gap does. *)
Theorem load_honours_offset :
  (∀ (fs : gmap string (list byte)) (path : string) (data : list byte),
     fs !! path = Some data → decodable data →
     let w := biWidth (info_header_of data) in
     let bh := biHeight (info_header_of data) in
     let h := Z.abs bh in
     let off := bfOffBits (file_header_of data) in
     let rs := row_size_of w in
     ∃ px : list byte,
       openf_load_bmp fs (Some path) true
       = Ret {| width := w; height := h; pixels := Some px |} ∧
       Z.of_nat (length px) = w * h * 3 ∧
       ∀ i x c, 0 ≤ i < h → 0 ≤ x < w → 0 ≤ c < 3 →
         px !! Z.to_nat (((if bool_decide (bh < 0) then i else h - 1 - i) * w
                          + x) * 3 + c)
         = data !! Z.to_nat (off + i * rs + x * 3 + 2 - c)) ∧
  (∀ (ih : OpenF_BMPInfoHeader) (gap rows : list byte),
     54 + Z.of_nat (length gap) < 2 ^ 32 →
     load_bmp_stream
       (stream_of (bmp_file (54 + Z.of_nat (length gap)) ih (gap ++ rows)))
     = load_bmp_stream (stream_of (bmp_file 54 ih rows))).
Proof.
  split.
  - intros fs path data Hfs Hdec w bh h off rs.
    rewrite (openf_load_bmp_stream fs path data Hfs).
    apply (load_bmp_stream_pixels data Hdec).
  - intros ih gap rows Hgap.
    destruct (bmp_file_headers (54 + Z.of_nat (length gap)) ih (gap ++ rows))
      as (Hl1 & Ht1 & Ho1 & Hb1 & Hc1 & Hw1 & Hh1).
    destruct (bmp_file_headers 54 ih rows)
      as (Hl2 & Ht2 & Ho2 & Hb2 & Hc2 & Hw2 & Hh2).
    rewrite !load_bmp_stream_headers by done. cbn zeta.
    rewrite Ht1, Ho1, Hb1, Hc1, Hw1, Hh1, Ht2, Ho2, Hb2, Hc2, Hw2, Hh2.
    repeat (case_decide; [done|]).
    f_equal. apply load_rows_loop_ext.
    rewrite !u32_small by lia.
    replace (Z.to_nat (54 + Z.of_nat (length gap)))
      with (54 + length gap)%nat by lia.
    replace (54 + Z.of_nat (length gap))
      with (Z.of_nat (54 + length gap)) by lia.
    rewrite drop_bmp_file by lia.
    change 54 with (Z.of_nat 54). rewrite Nat2Z.id.
    rewrite drop_bmp_file by lia.
    replace (54 + length gap - 54)%nat with (length gap) by lia.
    by rewrite drop_app_length.
Qed.

(** The two rows of [bmp_1x2_bottom_up] after a gap of four bytes. *)
Lemma load_honours_offset_witness :
  (∃ px : list byte,
     openf_load_bmp {[ "t.bmp"%string := bmp_1x2_top_down ]}
       (Some "t.bmp"%string) true
     = Ret {| width := 1; height := 2; pixels := Some px |} ∧
     px !! 0%nat = bmp_1x2_top_down !! 56%nat) ∧
  load_bmp_stream
    (stream_of (bmp_file 58 (info_24bit 1 2)
                  ([xff; xff; xff; xff] ++
                   [x01; x02; x03; x00; x04; x05; x06; x00])))
  = load_bmp_stream (stream_of bmp_1x2_bottom_up).
Proof.
  destruct load_honours_offset as [Hpix Hgap]. split.
  - destruct (Hpix {[ "t.bmp"%string := bmp_1x2_top_down ]}
                "t.bmp"%string bmp_1x2_top_down) as (px & Hload & _ & Hp).
    + reflexivity.
    + unfold decodable, fits_unsigned. vm_compute.
      repeat split; try done; lia.
    + exists px. split; [exact Hload|].
      assert (0 ≤ 0 < Z.abs (biHeight (info_header_of bmp_1x2_top_down)))
        as Hi by (vm_compute; split; [discriminate | reflexivity]).
      assert (0 ≤ 0 < biWidth (info_header_of bmp_1x2_top_down)) as Hx
        by (vm_compute; split; [discriminate | reflexivity]).
      assert (0 ≤ 0 < 3) as Hc by lia.
      pose proof (Hp 0 0 0 Hi Hx Hc) as H0.
      vm_compute in H0. vm_compute. exact H0.
  - apply (Hgap (info_24bit 1 2) [xff; xff; xff; xff]
             [x01; x02; x03; x00; x04; x05; x06; x00]).
    cbn. lia.
Defined.

(** ** Fields the decoder does not examine *)

(** Unexamined fields where no size wraps around: every file that passes
    the checks of the signature, of the bit count, of the compression and
    of the dimensions, whose sizes fit [unsigned int] and that holds the
    rows it announces is decoded, whatever its header
    size, plane count and image size fields hold; and when the pixel data
    start after the headers, other values in these three fields leave the
    outcome of the decoder as it is. *)
Theorem load_ignores_unchecked_fields :
  (∀ (fs : gmap string (list byte)) (path : string) (data : list byte)
     (hsize planes isize : Z),
     fs !! path = Some data → decodable data →
     biSize (info_header_of data) = hsize →
     biPlanes (info_header_of data) = planes →
     biSizeImage (info_header_of data) = isize →
     ∃ px : list byte,
       openf_load_bmp fs (Some path) true
       = Ret {| width := biWidth (info_header_of data);
                height := Z.abs (biHeight (info_header_of data));
                pixels := Some px |}) ∧
  (∀ (off : Z) (ih : OpenF_BMPInfoHeader) (body : list byte)
     (hsize planes isize : Z),
     54 ≤ off < 2 ^ 32 →
     load_bmp_stream
       (stream_of (bmp_file off (with_unchecked_fields ih hsize planes isize)
                     body))
     = load_bmp_stream (stream_of (bmp_file off ih body))).
Proof.
  split.
  - intros fs path data hsize planes isize Hfs Hdec _ _ _.
    rewrite (openf_load_bmp_stream fs path data Hfs).
    destruct (load_bmp_stream_pixels data Hdec) as (px & Hload & _).
    by exists px.
  - intros off ih body hsize planes isize Hoff.
    destruct (bmp_file_headers off
                (with_unchecked_fields ih hsize planes isize) body)
      as (Hl1 & Ht1 & Ho1 & Hb1 & Hc1 & Hw1 & Hh1).
    destruct (bmp_file_headers off ih body)
      as (Hl2 & Ht2 & Ho2 & Hb2 & Hc2 & Hw2 & Hh2).
    cbn [with_unchecked_fields biBitCount biCompression biWidth biHeight]
      in Hb1, Hc1, Hw1, Hh1.
    rewrite !load_bmp_stream_headers by done. cbn zeta.
    rewrite Ht1, Ho1, Hb1, Hc1, Hw1, Hh1, Ht2, Ho2, Hb2, Hc2, Hw2, Hh2.
    repeat (case_decide; [done|]).
    f_equal. apply load_rows_loop_ext.
    rewrite u32_small by lia.
    rewrite <- (Z2Nat.id off) by lia. rewrite Nat2Z.id.
    rewrite !drop_bmp_file by lia. done.
Qed.

(** A file of one pixel that declares a header size of 99, 7 planes and
    an image size of 12345 bytes. *)
Lemma load_ignores_unchecked_fields_witness :
  (∃ px : list byte,
     openf_load_bmp
       {[ "q.bmp"%string :=
            bmp_file 54 (with_unchecked_fields (info_24bit 1 1) 99 7 12345)
              [x10; x20; x30; x00] ]}
       (Some "q.bmp"%string) true
     = Ret {| width := 1; height := 1; pixels := Some px |}) ∧
  load_bmp_stream
    (stream_of (bmp_file 54 (with_unchecked_fields (info_24bit 1 1) 99 7 12345)
                  [x10; x20; x30; x00]))
  = load_bmp_stream (stream_of bmp_1x1).
Proof.
  destruct load_ignores_unchecked_fields as [Hok Hsame]. split.
  - destruct (Hok {[ "q.bmp"%string :=
                       bmp_file 54
                         (with_unchecked_fields (info_24bit 1 1) 99 7 12345)
                         [x10; x20; x30; x00] ]}
                "q.bmp"%string
                (bmp_file 54
                   (with_unchecked_fields (info_24bit 1 1) 99 7 12345)
                   [x10; x20; x30; x00]) 99 7 12345) as (px & Hload).
    + reflexivity.
    + unfold decodable, fits_unsigned. vm_compute.
      repeat split; try done; lia.
    + reflexivity.
    + reflexivity.
    + reflexivity.
    + exists px. exact Hload.
  - apply (Hsame 54 (info_24bit 1 1) [x10; x20; x30; x00] 99 7 12345). lia.
Defined.

(** A file of 1 by 1431655766 pixels: the product width * height * 3 is
    4294967298, the decoder allocates 2 bytes and stores the first pixel
    it reads at the index 4294967295. *)
Lemma load_bmp_stream_pixel_buffer hsize planes isize body :
  (4 ≤ length body)%nat →
  load_bmp_stream
    (stream_of (bmp_file 54
                  (with_unchecked_fields (info_24bit 1 1431655766)
                     hsize planes isize) body))
  = Undef.
Proof.
  intros Hbody.
  set (ih := with_unchecked_fields (info_24bit 1 1431655766)
               hsize planes isize).
  destruct (bmp_file_headers 54 ih body)
    as (Hl & Ht & Ho & Hb & Hc & Hw & Hh).
  cbn [ih with_unchecked_fields info_24bit
       biBitCount biCompression biWidth biHeight] in Hb, Hc, Hw, Hh.
  rewrite load_bmp_stream_headers by done. cbn zeta.
  rewrite Ht, Ho, Hb, Hc, Hw, Hh.
  change (i32 1) with 1. change (i32 1431655766) with 1431655766.
  change (24 mod 2 ^ 16) with 24. change (u32 0) with 0.
  change (u32 54) with 54. change (u32 1) with 1.
  rewrite decide_False by lia.
  rewrite decide_False by lia.
  rewrite decide_False by lia.
  rewrite (decide_False (P := 1431655766 < 0)) by lia.
  change (u32 1431655766) with 1431655766.
  change (usz (row_size_of 1)) with 4.
  change (usz (mul32 (mul32 1 1431655766) 3)) with 2.
  rewrite bool_decide_eq_false_2 by lia.
  destruct (Z.to_nat 1431655766) as [|n] eqn:En; [lia|].
  cbn [load_rows_loop].
  destruct (fread_full (Z.to_nat 4)
              (bmp_file 54 ih body) (Z.to_nat 54))
    as (row & -> & Hrow & _).
  { unfold bmp_file.
    rewrite !length_app, length_write_file_header, length_write_info_header.
    lia. }
  rewrite decide_False by lia.
  rewrite load_target_y_eq by lia.
  change (Z.to_nat 1) with 1%nat. cbn [load_row_loop].
  change (add32 (mul32 0 3) 2) with 2.
  destruct (load8_in row 2) as (b & _ & ->); [lia|]. cbn [exec_bind].
  change (add32 (mul32 (add32 (mul32 (1431655766 - 1 - 0) 1) 0) 3) 0)
    with 4294967295.
  unfold store8, malloc. rewrite length_replicate.
  rewrite decide_False by lia. done.
Qed.

(** C10 does not hold of the code at every file that holds its rows.  A
    file of one column and 1431655766 rows passes the checks of the
    signature, of the bit count, of the compression and of the dimensions
    and holds the 1431655766 rows of 4 bytes it announces, whatever its
    header size, plane count and image size fields hold.  The size of the
    pixel buffer, [width * height * 3], is computed on [unsigned int] and
    wraps around to 2: the decoder stores the first pixel it reads outside
    the two bytes it allocated. *)
Theorem load_pixel_buffer_overflows (hsize planes isize : Z) :
  let data :=
    bmp_file 54
      (with_unchecked_fields (info_24bit 1 1431655766) hsize planes isize)
      tall_file_rows in
  take 2 data = [x42; x4d] ∧
  biBitCount (info_header_of data) = 24 ∧
  biCompression (info_header_of data) = 0 ∧
  biWidth (info_header_of data) = 1 ∧
  biHeight (info_header_of data) = 1431655766 ∧
  bfOffBits (file_header_of data) = 54 ∧
  Z.of_nat (length data) = 54 + 1431655766 * row_size_of 1 ∧
  usz (mul32 (mul32 1 1431655766) 3) = 2 ∧
  openf_load_bmp {[ "t.bmp"%string := data ]} (Some "t.bmp"%string) true
  = Undef.
Proof.
  intros data.
  destruct (bmp_file_headers 54
              (with_unchecked_fields (info_24bit 1 1431655766)
                 hsize planes isize) tall_file_rows)
    as (_ & _ & Ho & Hb & Hc & Hw & Hh).
  fold data in Ho, Hb, Hc, Hw, Hh.
  split; [reflexivity|].
  do 5 (split; [assumption|]).
  split.
  { subst data. unfold bmp_file, tall_file_rows.
    rewrite !length_app, length_write_file_header, length_write_info_header,
      length_replicate.
    change (row_size_of 1) with 4. lia. }
  split; [reflexivity|].
  rewrite (openf_load_bmp_stream _ "t.bmp"%string data)
    by apply lookup_singleton_eq.
  apply load_bmp_stream_pixel_buffer.
  unfold tall_file_rows. rewrite length_replicate. lia.
Qed.

(** ** The row stride *)

(** The stride of the widths whose padded row fits [unsigned int]:
    [width * 3] rounded up to a multiple of four. *)
Lemma row_size_of_in_range w :
  0 ≤ w → w * 3 + 3 < 2 ^ 32 →
  row_size_of w = (w * 3 + 3) / 4 * 4 ∧
  w * 3 ≤ row_size_of w < w * 3 + 4 ∧
  row_size_of w mod 4 = 0.
Proof.
  intros Hw Hmax. rewrite row_size_of_small by done.
  pose proof (round4_bounds (w * 3)). split; [done|]. split; [lia|].
  apply Z.mod_mul. lia.
Qed.

Example row_size_of_examples :
  row_size_of 1 = 4 ∧ row_size_of 4 = 12 ∧ row_size_of 5 = 16.
Proof. repeat split. Qed.

(** C4 does not hold of the code at every positive width.  The stride is
    computed on [unsigned int]: at the width 1431655765 the sum
    [width * 3 + 3] wraps around to 2 and the stride is 0, where
    [width * 3] rounded up to a multiple of four is 4294967296; the
    decoder then indexes a row buffer of no byte. *)
Theorem row_size_wraps_around :
  row_size_of 1431655765 = 0 ∧
  (1431655765 * 3 + 3) / 4 * 4 = 4294967296 ∧
  load_bmp_stream (stream_of (bmp_file 54 (info_24bit 1431655765 1) []))
  = Undef.
Proof. split; [reflexivity|]. split; [reflexivity|]. lazy. reflexivity. Qed.

(** * The file operations *)

(** ** Strings *)

Lemma strlen_c_string s n :
  strlen s = Ret n →
  0 ≤ n < Z.of_nat (length s) ∧
  c_string s = take (Z.to_nat n) s ∧
  s !! Z.to_nat n = Some x00 ∧
  x00 ∉ c_string s.
Proof.
  revert n. induction s as [|b s IH]; intros n; [done|].
  cbn [strlen c_string]. destruct (Byte.eqb b x00) eqn:E.
  - intros [= <-]. apply Byte.byte_dec_bl in E. subst b.
    cbn. split; [lia|]. split; [done|]. split; [done|]. apply not_elem_of_nil.
  - destruct (strlen s) as [m| |] eqn:Es; cbn [exec_bind]; try done.
    intros [= <-]. destruct (IH m eq_refl) as (Hm & Hc & Hz & Hno).
    cbn [length]. split; [lia|].
    replace (Z.to_nat (m + 1)) with (S (Z.to_nat m)) by lia.
    cbn [take lookup list_lookup]. split; [by rewrite Hc|]. split; [done|].
    rewrite not_elem_of_cons. split; [|done].
    intros <-. vm_compute in E. done.
Qed.

Lemma strlen_defined s : x00 ∈ s → ∃ n, strlen s = Ret n.
Proof.
  induction s as [|b s IH]; [by intros ?%elem_of_nil|].
  intros Hin. cbn [strlen]. destruct (Byte.eqb b x00) eqn:E; [by eexists|].
  apply elem_of_cons in Hin as [<- | Hin]; [vm_compute in E; done|].
  destruct (IH Hin) as [n ->]. by eexists.
Qed.

Lemma strlen_app_zero s rest :
  x00 ∉ s → strlen (s ++ x00 :: rest) = Ret (Z.of_nat (length s)).
Proof.
  induction s as [|b s IH]; intros Hno; [done|].
  apply not_elem_of_cons in Hno as [Hb Hno].
  cbn [app strlen length]. destruct (Byte.eqb b x00) eqn:E.
  - apply Byte.byte_dec_bl in E. congruence.
  - rewrite IH by done. cbn [exec_bind]. f_equal. lia.
Qed.

(** The copy made of a string: its characters, then a zero byte. *)
Lemma copy_string_spec s :
  x00 ∈ s → Z.of_nat (length s) < 2 ^ 63 →
  copy_string s
  = Ret (c_string s ++ [x00], Z.of_nat (length (c_string s))).
Proof.
  intros Hin Hlen. destruct (strlen_defined s Hin) as [n Hn].
  destruct (strlen_c_string s n Hn) as (Hr & Hc & _ & _).
  unfold copy_string. rewrite Hn. cbn [exec_bind].
  unfold memcpy, malloc. unwrap.
  rewrite decide_True by (rewrite length_replicate; lia). cbn [exec_bind].
  rewrite <- Hc.
  assert (length (c_string s) = Z.to_nat n) as Hl
    by (rewrite Hc, length_take; lia).
  rewrite store8_in
    by (rewrite length_app, length_drop, length_replicate; lia).
  cbn [exec_bind]. f_equal. f_equal; [|lia].
  replace (Z.to_nat (n + 1)) with (S (Z.to_nat n)) by lia.
  rewrite <- Hl at 2.
  rewrite insert_app_r_alt by lia.
  rewrite Hl, Nat.sub_diag.
  rewrite drop_replicate. replace (S (Z.to_nat n) - Z.to_nat n)%nat
    with 1%nat by lia.
  done.
Qed.

Lemma c_string_app_zero s rest : x00 ∉ s → c_string (s ++ x00 :: rest) = s.
Proof.
  induction s as [|b s IH]; intros Hno; [done|].
  apply not_elem_of_cons in Hno as [Hb Hno].
  cbn [app c_string]. destruct (Byte.eqb b x00) eqn:E.
  - apply Byte.byte_dec_bl in E. congruence.
  - by rewrite IH.
Qed.

Lemma c_string_no_zero s : x00 ∉ c_string s.
Proof.
  induction s as [|b s IH]; cbn [c_string]; [apply not_elem_of_nil|].
  destruct (Byte.eqb b x00) eqn:E; [apply not_elem_of_nil|].
  apply not_elem_of_cons. split; [|done]. intros <-. vm_compute in E. done.
Qed.

(** X1. [openf_strdup] on a buffer that holds a terminated string returns
    a buffer of exactly strlen + 1 bytes: the characters of the string and
    the terminator; the copy holds the same string as the source and has
    the same [strlen], whatever follows the terminator in the source. *)
Theorem openf_strdup_copy (src : list byte) :
  x00 ∈ src → Z.of_nat (length src) < 2 ^ 63 →
  ∃ dup : list byte,
    openf_strdup (Some src) true = Ret dup ∧
    dup = c_string src ++ [x00] ∧
    c_string dup = c_string src ∧
    strlen dup = strlen src.
Proof.
  intros Hin Hlen. exists (c_string src ++ [x00]).
  unfold openf_strdup. rewrite copy_string_spec by done. cbn [exec_bind fst].
  split; [done|]. split; [done|].
  pose proof (c_string_no_zero src) as Hno.
  split; [by apply c_string_app_zero|].
  rewrite strlen_app_zero by done.
  destruct (strlen_defined src Hin) as [n Hn]. rewrite Hn.
  destruct (strlen_c_string src n Hn) as (Hr & Hc & _).
  f_equal. rewrite Hc, length_take. lia.
Qed.

Lemma openf_strdup_copy_witness :
  ∃ dup : list byte,
    openf_strdup (Some [x68; x69; x00; x7a]) true = Ret dup ∧
    dup = [x68; x69; x00].
Proof.
  destruct (openf_strdup_copy [x68; x69; x00; x7a]) as (dup & H1 & H2 & _).
  - apply list_elem_of_lookup_2 with 2%nat. reflexivity.
  - cbn. lia.
  - exists dup. split; [exact H1 | exact H2].
Defined.

(** X2. [openf_init_file] with a terminated string stores a fresh copy
    of the string with its terminator and the length of the string as
    size; with a NULL content it stores a NULL buffer of size 0; and
    [openf_free_file] brings either structure to the NULL buffer of size 0,
    where a second call changes nothing. *)
Theorem openf_init_free_file (content : list byte) :
  x00 ∈ content → Z.of_nat (length content) < 2 ^ 63 →
  let empty := {| data := None; size := 0 |} in
  ∃ f : OpenF_File,
    openf_init_file true (Some content) = Ret f ∧
    data f = Some (c_string content ++ [x00]) ∧
    size f = Z.of_nat (length (c_string content)) ∧
    openf_init_file true None = Ret empty ∧
    openf_free_file (Some f) = Some empty ∧
    openf_free_file (Some empty) = Some empty.
Proof.
  intros Hin Hlen empty. unfold openf_init_file. cbn [negb].
  rewrite copy_string_spec by done. cbn [exec_bind fst snd].
  eexists. split; [done|]. cbn [data size]. done.
Qed.

Lemma openf_init_free_file_witness :
  ∃ f : OpenF_File,
    openf_init_file true (Some [x68; x69; x00]) = Ret f ∧
    data f = Some [x68; x69; x00] ∧ size f = 2.
Proof.
  destruct (openf_init_free_file [x68; x69; x00]) as (f & H1 & H2 & H3 & _).
  - apply list_elem_of_lookup_2 with 2%nat. reflexivity.
  - cbn. lia.
  - exists f. split; [exact H1|]. split; [exact H2 | exact H3].
Defined.

(** ** Whole files *)

Lemma openf_read_content (fs : gmap string (list byte)) path content :
  fs !! path = Some content → Z.of_nat (length content) < 2 ^ 63 →
  openf_read fs (Some path) true
  = Ret {| data := Some (content ++ [x00]);
           size := Z.of_nat (length content) |}.
Proof.
  intros Hfs Hlen. unfold openf_read, fopen_rb, fread. rewrite Hfs.
  cbn [f_data f_pos]. rewrite drop_0, Nat2Z.id, firstn_all.
  rewrite (usz_small (Z.of_nat (length content))) by lia.
  rewrite decide_False by (intros H; by apply H).
  unfold malloc. unwrap.
  rewrite drop_replicate.
  replace (Z.to_nat (Z.of_nat (length content) + 1) - length content)%nat
    with 1%nat by lia.
  rewrite store8_in by (rewrite length_app; cbn; lia). cbn [exec_bind].
  rewrite Nat2Z.id.
  replace (length content) with (length content + 0)%nat at 1 by lia.
  rewrite insert_app_r. done.
Qed.

(** X3. Reading: for a file that exists, [openf_read] returns the whole
    content followed by one zero byte, with the number of bytes of the
    content as size, [openf_get_size] returns the same size and
    [openf_exists] returns 1; for a path with no file, [openf_read] fails
    with [OPENF_ERR_OPEN_FAILED], [openf_get_size] fails with
    [OPENF_ERR_FILE_NOT_FOUND] and [openf_exists] returns 0. *)
Theorem openf_read_size_exists (fs : gmap string (list byte))
    (path : string) :
  (∀ content : list byte,
     fs !! path = Some content → Z.of_nat (length content) < 2 ^ 63 →
     openf_read fs (Some path) true
     = Ret {| data := Some (content ++ [x00]);
              size := Z.of_nat (length content) |} ∧
     openf_get_size fs (Some path) true = Ret (Z.of_nat (length content)) ∧
     openf_exists fs (Some path) = 1) ∧
  (fs !! path = None →
   openf_read fs (Some path) true = Fail OPENF_ERR_OPEN_FAILED ∧
   openf_get_size fs (Some path) true = Fail OPENF_ERR_FILE_NOT_FOUND ∧
   openf_exists fs (Some path) = 0).
Proof.
  split.
  - intros content Hfs Hlen. split; [by apply openf_read_content|].
    unfold openf_get_size, openf_exists, fopen_rb. rewrite Hfs.
    cbn [f_data]. by rewrite usz_small by lia.
  - intros Hfs. unfold openf_read, openf_get_size, openf_exists, fopen_rb.
    by rewrite Hfs.
Qed.

Lemma openf_read_size_exists_witness :
  openf_read {[ "n.txt"%string := [x68; x69] ]} (Some "n.txt"%string) true
  = Ret {| data := Some [x68; x69; x00]; size := 2 |} ∧
  openf_read {[ "n.txt"%string := [x68; x69] ]} (Some "m.txt"%string) true
  = Fail OPENF_ERR_OPEN_FAILED.
Proof.
  split.
  - destruct (openf_read_size_exists {[ "n.txt"%string := [x68; x69] ]}
                "n.txt"%string) as [H _].
    destruct (H [x68; x69]) as [Hr _]; [reflexivity | cbn; lia |].
    exact Hr.
  - destruct (openf_read_size_exists {[ "n.txt"%string := [x68; x69] ]}
                "m.txt"%string) as [_ H].
    destruct H as [Hr _]; [reflexivity|]. exact Hr.
Defined.

Lemma fwrite_end_fopen_wb (fs : gmap string (list byte)) path chunk :
  fwrite_end (fopen_wb fs path) path chunk = <[path := chunk]> fs.
Proof.
  unfold fwrite_end, fopen_wb. rewrite lookup_insert_eq. cbn.
  by rewrite insert_insert_eq.
Qed.

(** X4. Writing then reading: [openf_write] of the first [n] bytes of a
    buffer succeeds, creates or replaces the file with exactly these bytes
    and leaves every other file as it is; [openf_read] then returns these
    bytes (and a terminator) with size [n], [openf_get_size] returns [n]
    and [openf_exists] returns 1. *)
Theorem openf_write_read (fs : gmap string (list byte)) (path : string)
    (buf : list byte) (n : Z) :
  0 ≤ n ≤ Z.of_nat (length buf) → n < 2 ^ 63 →
  let written := take (Z.to_nat n) buf in
  let fs' := <[path := written]> fs in
  openf_write fs (Some path) (Some buf) n = Returned OPENF_OK fs' ∧
  (∀ q, q ≠ path → fs' !! q = fs !! q) ∧
  openf_read fs' (Some path) true
  = Ret {| data := Some (written ++ [x00]); size := n |} ∧
  openf_get_size fs' (Some path) true = Ret n ∧
  openf_exists fs' (Some path) = 1.
Proof.
  intros Hn Hmax written fs'.
  assert (Z.of_nat (length written) = n) as Hl
    by (subst written; rewrite length_take; lia).
  split.
  - unfold openf_write. rewrite decide_True by lia.
    by rewrite fwrite_end_fopen_wb.
  - split; [intros q Hq; subst fs'; by rewrite lookup_insert_ne|].
    rewrite <- Hl at 1 2.
    split; [apply openf_read_content; [apply lookup_insert_eq | lia]|].
    unfold openf_get_size, openf_exists, fopen_rb. subst fs'.
    rewrite lookup_insert_eq. cbn [f_data]. by rewrite usz_small by lia.
Qed.

Lemma openf_write_read_witness :
  openf_write ∅ (Some "n.txt"%string) (Some [x68; x69; x6a]) 2
  = Returned OPENF_OK (<["n.txt"%string := [x68; x69]]> ∅).
Proof.
  destruct (openf_write_read ∅ "n.txt"%string [x68; x69; x6a] 2) as [H _];
    [cbn; lia | lia |].
  exact H.
Defined.

Lemma openf_append_text_ok (fs : gmap string (list byte)) path text :
  x00 ∈ text →
  openf_append_text fs (Some path) (Some text)
  = Returned OPENF_OK
      (<[path := default [] (fs !! path) ++ c_string text]> fs).
Proof.
  intros Hin. destruct (strlen_defined text Hin) as [n Hn].
  destruct (strlen_c_string text n Hn) as (_ & Hc & _).
  unfold openf_append_text. rewrite Hn, <- Hc.
  unfold fwrite_end, fopen_ab.
  destruct (fs !! path) as [old|] eqn:Hfs.
  - by rewrite Hfs.
  - rewrite lookup_insert_eq. cbn. by rewrite insert_insert_eq.
Qed.

(** X5. Appending: when the text buffer holds a terminated string,
    [openf_append_text] succeeds and the file holds what it held before (or
    nothing, when it did not exist) followed by the characters of the
    string; the terminator and what follows it are not written, and no
    other file changes. *)
Theorem openf_append_text_content (fs : gmap string (list byte))
    (path : string) (text : list byte) :
  x00 ∈ text →
  let fs' := <[path := default [] (fs !! path) ++ c_string text]> fs in
  openf_append_text fs (Some path) (Some text) = Returned OPENF_OK fs' ∧
  ∀ q, q ≠ path → fs' !! q = fs !! q.
Proof.
  intros Hin fs'. split; [by apply openf_append_text_ok|].
  intros q Hq. subst fs'. by rewrite lookup_insert_ne.
Qed.

Lemma openf_append_text_content_witness :
  openf_append_text {[ "l.txt"%string := [x61] ]} (Some "l.txt"%string)
    (Some [x62; x63; x00; x64])
  = Returned OPENF_OK
      (<["l.txt"%string := [x61; x62; x63]]> {[ "l.txt"%string := [x61] ]}).
Proof.
  destruct (openf_append_text_content {[ "l.txt"%string := [x61] ]}
              "l.txt"%string [x62; x63; x00; x64]) as [H _].
  - apply list_elem_of_lookup_2 with 2%nat. reflexivity.
  - exact H.
Defined.

Lemma c_string_app s t : x00 ∉ s → c_string (s ++ t) = s ++ c_string t.
Proof.
  induction s as [|b s IH]; intros Hno; [done|].
  apply not_elem_of_cons in Hno as [Hb Hno]. cbn [app c_string].
  destruct (Byte.eqb b x00) eqn:E.
  - apply Byte.byte_dec_bl in E. congruence.
  - by rewrite IH.
Qed.

(** X6. Two appends compose: appending the string of [t1] and then the
    string of [t2] leaves the file system that one append of the two
    strings put together leaves. *)
Theorem openf_append_text_twice (fs fs1 : gmap string (list byte))
    (path : string) (t1 t2 : list byte) :
  x00 ∈ t1 → x00 ∈ t2 →
  openf_append_text fs (Some path) (Some t1) = Returned OPENF_OK fs1 →
  openf_append_text fs1 (Some path) (Some t2)
  = openf_append_text fs (Some path) (Some (c_string t1 ++ t2)).
Proof.
  intros H1 H2 Hfirst.
  rewrite (openf_append_text_ok fs path t1 H1) in Hfirst.
  injection Hfirst as <-.
  rewrite (openf_append_text_ok _ path t2 H2).
  rewrite (openf_append_text_ok fs path (c_string t1 ++ t2))
    by (apply elem_of_app; by right).
  rewrite lookup_insert_eq. cbn [default]. rewrite insert_insert_eq.
  rewrite c_string_app by apply c_string_no_zero.
  by rewrite app_assoc.
Qed.

Lemma openf_append_text_twice_witness :
  openf_append_text
    (<["l.txt"%string := [x61; x62; x63]]> {[ "l.txt"%string := [x61] ]})
    (Some "l.txt"%string) (Some [x65; x00])
  = openf_append_text {[ "l.txt"%string := [x61] ]} (Some "l.txt"%string)
      (Some (c_string [x62; x63; x00; x64] ++ [x65; x00])).
Proof.
  apply (openf_append_text_twice {[ "l.txt"%string := [x61] ]}
           (<["l.txt"%string := [x61; x62; x63]]>
              {[ "l.txt"%string := [x61] ]})
           "l.txt"%string [x62; x63; x00; x64] [x65; x00]).
  - apply list_elem_of_lookup_2 with 2%nat. reflexivity.
  - apply list_elem_of_lookup_2 with 1%nat. reflexivity.
  - reflexivity.
Defined.

(** ** Copying *)

(** The copy loop between two different files: what is left of the input
    from the position of its stream on is added to the output. *)
Lemma copy_chunks_spec (src out : string) (content : list byte) :
  src ≠ out →
  ∀ (fuel : nat) (fs : gmap string (list byte)) (pos : nat) (o : list byte),
    fs !! src = Some content → fs !! out = Some o →
    (length content - pos < fuel)%nat →
    copy_chunks fuel fs {| r_path := src; r_pos := pos |} out
    = Some (<[out := o ++ drop pos content]> fs).
Proof.
  intros Hne fuel.
  induction fuel as [|fuel IH]; intros fs pos o Hsrc Hout Hfuel; [lia|].
  cbn [copy_chunks]. unfold fread_fs. cbn [r_path r_pos]. rewrite Hsrc.
  change (default [] (Some content)) with content.
  set (chunk := take copy_buffer_size (drop pos content)).
  case_decide as Hc.
  - assert (length chunk ≤ length content - pos)%nat as Hle
      by (subst chunk; rewrite length_take, length_drop; lia).
    rewrite (IH _ (pos + length chunk)%nat (o ++ chunk)).
    + unfold fwrite_end. rewrite Hout. cbn [default].
      rewrite insert_insert_eq. do 2 f_equal. rewrite <- app_assoc. f_equal.
      transitivity (chunk ++ drop copy_buffer_size (drop pos content));
        [|apply take_drop].
      f_equal. rewrite drop_drop.
      destruct (decide (copy_buffer_size ≤ length content - pos)%nat).
      * f_equal. subst chunk. rewrite length_take, length_drop. lia.
      * rewrite !drop_ge; [done | lia |].
        subst chunk. rewrite length_take, length_drop. lia.
    + unfold fwrite_end. by rewrite lookup_insert_ne.
    + unfold fwrite_end. rewrite Hout. apply lookup_insert_eq.
    + lia.
  - assert (drop pos content = []) as ->.
    { destruct (drop pos content) as [|b l] eqn:E; [done|].
      subst chunk. rewrite length_take in Hc. cbn [length] in Hc.
      unfold copy_buffer_size in Hc. lia. }
    rewrite app_nil_r. by rewrite insert_id.
Qed.

Lemma openf_copy_file_ok (fuel : nat) (fs : gmap string (list byte))
    src dest content :
  src ≠ dest → fs !! src = Some content →
  (length content < fuel)%nat →
  openf_copy_file fuel fs (Some src) (Some dest)
  = Returned OPENF_OK (<[dest := content]> fs).
Proof.
  intros Hne Hsrc Hfuel. unfold openf_copy_file. rewrite Hsrc.
  rewrite (copy_chunks_spec src dest content Hne fuel _ 0 []).
  - unfold fopen_wb. rewrite insert_insert_eq. by rewrite drop_0.
  - unfold fopen_wb. by rewrite lookup_insert_ne.
  - apply lookup_insert_eq.
  - lia.
Qed.

(** X7. Copying to another path: when the source exists and the
    destination is another path, [openf_copy_file] (given steps for every
    byte) succeeds; the destination then holds exactly the content of the
    source, and the source and every other file are as before. *)
Theorem openf_copy_file_content (fuel : nat) (fs : gmap string (list byte))
    (src dest : string) (content : list byte) :
  src ≠ dest → fs !! src = Some content →
  (length content < fuel)%nat →
  let fs' := <[dest := content]> fs in
  openf_copy_file fuel fs (Some src) (Some dest) = Returned OPENF_OK fs' ∧
  fs' !! dest = Some content ∧
  fs' !! src = Some content ∧
  ∀ q, q ≠ dest → fs' !! q = fs !! q.
Proof.
  intros Hne Hsrc Hfuel fs'. split; [by apply openf_copy_file_ok|].
  subst fs'. split; [apply lookup_insert_eq|].
  split; [by rewrite lookup_insert_ne|].
  intros q Hq. by rewrite lookup_insert_ne.
Qed.

Lemma openf_copy_file_content_witness :
  openf_copy_file 3 {[ "a"%string := [x01; x02] ]}
    (Some "a"%string) (Some "b"%string)
  = Returned OPENF_OK (<["b"%string := [x01; x02]]> {[ "a"%string := [x01; x02] ]}).
Proof.
  destruct (openf_copy_file_content 3 {[ "a"%string := [x01; x02] ]}
              "a"%string "b"%string [x01; x02]) as [H _];
    [discriminate | reflexivity | cbn; lia |].
  exact H.
Defined.

(** X8. Copying a file onto itself: when source and destination are the
    same existing path, [openf_copy_file] returns [OPENF_OK] and leaves the
    file empty: the destination is emptied when it is opened, before the
    first read of the source.  A source that does not exist gives
    [OPENF_ERR_FILE_NOT_FOUND] with the file system untouched. *)
Theorem openf_copy_file_onto_itself (fuel : nat)
    (fs : gmap string (list byte)) (path : string) :
  (0 < fuel)%nat →
  (∀ content : list byte,
     fs !! path = Some content →
     openf_copy_file fuel fs (Some path) (Some path)
     = Returned OPENF_OK (<[path := []]> fs)) ∧
  (∀ dest : string,
     fs !! path = None →
     openf_copy_file fuel fs (Some path) (Some dest)
     = Returned OPENF_ERR_FILE_NOT_FOUND fs).
Proof.
  intros Hfuel. split.
  - intros content Hfs. unfold openf_copy_file. rewrite Hfs.
    destruct fuel as [|fuel]; [lia|].
    cbn [copy_chunks]. unfold fread_fs, fopen_wb. cbn [r_path r_pos].
    rewrite lookup_insert_eq.
    change (default [] (Some [])) with (@nil byte).
    rewrite drop_nil, take_nil. cbn [length].
    by rewrite decide_False by lia.
  - intros dest Hfs. unfold openf_copy_file. by rewrite Hfs.
Qed.

Lemma openf_copy_file_onto_itself_witness :
  openf_copy_file 1 {[ "a"%string := [x01; x02] ]}
    (Some "a"%string) (Some "a"%string)
  = Returned OPENF_OK (<["a"%string := []]> {[ "a"%string := [x01; x02] ]}).
Proof.
  destruct (openf_copy_file_onto_itself 1 {[ "a"%string := [x01; x02] ]}
              "a"%string) as [H _]; [lia|].
  apply (H [x01; x02]). reflexivity.
Defined.

(** ** Merging *)

(** The copy loop on an input that is empty when it is read. *)
Lemma copy_chunks_empty (fuel : nat) (fs : gmap string (list byte))
    (file out : string) :
  (0 < fuel)%nat → fs !! file = Some [] →
  copy_chunks fuel fs {| r_path := file; r_pos := 0 |} out = Some fs.
Proof.
  intros Hfuel Hfs. destruct fuel as [|fuel]; [lia|].
  cbn [copy_chunks]. unfold fread_fs. cbn [r_path r_pos]. rewrite Hfs.
  change (default [] (Some [])) with (@nil byte).
  rewrite drop_nil, take_nil. cbn [length].
  by rewrite decide_False by lia.
Qed.

(** X9. Use of a closed stream: [openf_merge_files] closes each input and
    then asks the closed stream for its error indicator.  Whenever the
    first input can be opened (given steps for every byte of it), the call
    reaches this [ferror], to which C gives no meaning; it returns before
    only for a NULL argument or a first input that cannot be opened. *)
Theorem openf_merge_files_closed_stream (fuel : nat)
    (fs : gmap string (list byte)) (out a b : string) (ca : list byte) :
  fopen_wb fs out !! a = Some ca → (length ca < fuel)%nat →
  openf_merge_files None fuel fs (Some out) (Some a) (Some b) = Undefined.
Proof.
  intros Ha Hfuel. unfold openf_merge_files. cbn [merge_inputs]. rewrite Ha.
  destruct (decide (a = out)) as [-> | Hne].
  - unfold fopen_wb in Ha. rewrite lookup_insert_eq in Ha.
    injection Ha as <-.
    rewrite copy_chunks_empty; [done | lia | apply lookup_insert_eq].
  - rewrite (copy_chunks_spec a out ca Hne fuel _ 0 []);
      [done | done | apply lookup_insert_eq | lia].
Qed.

Lemma openf_merge_files_closed_stream_witness :
  openf_merge_files None 3 {[ "a"%string := [x01; x02] ]}
    (Some "o"%string) (Some "a"%string) (Some "a"%string) = Undefined.
Proof.
  apply (openf_merge_files_closed_stream 3 {[ "a"%string := [x01; x02] ]}
           "o"%string "a"%string "a"%string [x01; x02]);
    [reflexivity | cbn; lia].
Defined.

(** X10. Merging into a third file: on a C library where [ferror] on the
    closed input answers 0, when both inputs exist and the output is
    neither of them, [openf_merge_files] (given steps for every byte)
    succeeds; the output then holds the content of the first input followed
    by the content of the second, and every other file is as before. *)
Theorem openf_merge_files_concat (fuel : nat) (fs : gmap string (list byte))
    (out a b : string) (ca cb : list byte) :
  out ≠ a → out ≠ b →
  fs !! a = Some ca → fs !! b = Some cb →
  (length ca < fuel)%nat → (length cb < fuel)%nat →
  let fs' := <[out := ca ++ cb]> fs in
  openf_merge_files (Some false) fuel fs (Some out) (Some a) (Some b)
  = Returned OPENF_OK fs' ∧
  ∀ q, q ≠ out → fs' !! q = fs !! q.
Proof.
  intros Hoa Hob Ha Hb Hfa Hfb fs'.
  split; [|intros q Hq; subst fs'; by rewrite lookup_insert_ne].
  unfold openf_merge_files, fopen_wb. cbn [merge_inputs].
  rewrite lookup_insert_ne, Ha by done.
  rewrite (copy_chunks_spec a out ca ltac:(done) fuel _ 0 []);
    [| by rewrite lookup_insert_ne | apply lookup_insert_eq | lia].
  rewrite insert_insert_eq, drop_0. cbn [app].
  rewrite lookup_insert_ne, Hb by done.
  rewrite (copy_chunks_spec b out cb ltac:(done) fuel _ 0 ca);
    [| by rewrite lookup_insert_ne | apply lookup_insert_eq | lia].
  by rewrite insert_insert_eq, drop_0.
Qed.

Lemma openf_merge_files_concat_witness :
  openf_merge_files (Some false) 3
    {[ "a"%string := [x01; x02]; "b"%string := [x03] ]}
    (Some "o"%string) (Some "a"%string) (Some "b"%string)
  = Returned OPENF_OK
      (<["o"%string := [x01; x02; x03]]>
         {[ "a"%string := [x01; x02]; "b"%string := [x03] ]}).
Proof.
  destruct (openf_merge_files_concat 3
              {[ "a"%string := [x01; x02]; "b"%string := [x03] ]}
              "o"%string "a"%string "b"%string [x01; x02] [x03]) as [H _];
    [discriminate | discriminate | reflexivity | reflexivity
    | cbn; lia | cbn; lia |].
  exact H.
Defined.

(** X11. A failed merge has already changed the output: the output is
    opened, hence created or emptied, before the inputs are.  When the first
    input does not exist, [openf_merge_files] returns
    [OPENF_ERR_FILE_NOT_FOUND] and leaves the output empty; when (with
    [ferror] on the closed input answering 0) only the second input does
    not exist, it returns the same code and leaves the output holding the
    content of the first input. *)
Theorem openf_merge_files_missing_input (stale : option bool) (fuel : nat)
    (fs : gmap string (list byte)) (out a b : string) :
  out ≠ a → out ≠ b →
  (fs !! a = None →
   openf_merge_files stale fuel fs (Some out) (Some a) (Some b)
   = Returned OPENF_ERR_FILE_NOT_FOUND (<[out := []]> fs)) ∧
  (∀ ca : list byte,
     fs !! a = Some ca → fs !! b = None → (length ca < fuel)%nat →
     openf_merge_files (Some false) fuel fs (Some out) (Some a) (Some b)
     = Returned OPENF_ERR_FILE_NOT_FOUND (<[out := ca]> fs)).
Proof.
  intros Hoa Hob. split.
  - intros Ha. unfold openf_merge_files, fopen_wb. cbn [merge_inputs].
    by rewrite lookup_insert_ne, Ha by done.
  - intros ca Ha Hb Hfuel. unfold openf_merge_files, fopen_wb.
    cbn [merge_inputs]. rewrite lookup_insert_ne, Ha by done.
    rewrite (copy_chunks_spec a out ca ltac:(done) fuel _ 0 []);
      [| by rewrite lookup_insert_ne | apply lookup_insert_eq | lia].
    rewrite insert_insert_eq, drop_0. cbn [app].
    by rewrite lookup_insert_ne, Hb by done.
Qed.

Lemma openf_merge_files_missing_input_witness :
  openf_merge_files None 3 {[ "o"%string := [x09] ]}
    (Some "o"%string) (Some "a"%string) (Some "b"%string)
  = Returned OPENF_ERR_FILE_NOT_FOUND
      (<["o"%string := []]> {[ "o"%string := [x09] ]}).
Proof.
  destruct (openf_merge_files_missing_input None 3 {[ "o"%string := [x09] ]}
              "o"%string "a"%string "b"%string) as [H _];
    [discriminate | discriminate |].
  apply H. reflexivity.
Defined.

(** X12. Merging into the first input: with [ferror] on the closed input
    answering 0, when the output path is also the first input and the
    second input is another existing file, [openf_merge_files] succeeds
    and the output holds the content of the second input only: what the
    first input held is lost when the output is opened. *)
Theorem openf_merge_files_into_first (fuel : nat)
    (fs : gmap string (list byte)) (out b : string) (cb : list byte) :
  out ≠ b → fs !! b = Some cb → (length cb < fuel)%nat →
  openf_merge_files (Some false) fuel fs (Some out) (Some out) (Some b)
  = Returned OPENF_OK (<[out := cb]> fs).
Proof.
  intros Hob Hb Hfuel. unfold openf_merge_files, fopen_wb.
  cbn [merge_inputs]. rewrite lookup_insert_eq.
  rewrite copy_chunks_empty; [| lia | apply lookup_insert_eq].
  rewrite lookup_insert_ne, Hb by done.
  rewrite (copy_chunks_spec b out cb ltac:(done) fuel _ 0 []);
    [| by rewrite lookup_insert_ne | apply lookup_insert_eq | lia].
  by rewrite insert_insert_eq, drop_0.
Qed.

Lemma openf_merge_files_into_first_witness :
  openf_merge_files (Some false) 3
    {[ "a"%string := [x01; x02]; "b"%string := [x03] ]}
    (Some "a"%string) (Some "a"%string) (Some "b"%string)
  = Returned OPENF_OK
      (<["a"%string := [x03]]>
         {[ "a"%string := [x01; x02]; "b"%string := [x03] ]}).
Proof.
  apply (openf_merge_files_into_first 3
           {[ "a"%string := [x01; x02]; "b"%string := [x03] ]}
           "a"%string "b"%string [x03]);
    [discriminate | reflexivity | cbn; lia].
Defined.

(** * More on the codec *)

(** ** Truncated files *)

Lemma load_bmp_stream_short_info data :
  (14 ≤ length data < 54)%nat →
  bfType (file_header_of data) = 0x4D42 →
  load_bmp_stream (stream_of data) = Fail OPENF_ERR_READ_FAILED.
Proof.
  intros Hlen Hsig. unfold load_bmp_stream, stream_of, fread.
  cbn [f_data f_pos]. rewrite drop_0.
  assert (length (take sizeof_file_header data) = sizeof_file_header) as ->
    by (rewrite length_take; unfold sizeof_file_header; lia).
  case_decide as Hd; [done|]. clear Hd.
  fold (file_header_of data). rewrite decide_False by (by intros []).
  rewrite decide_True; [done|].
  rewrite length_take, length_drop.
  unfold sizeof_file_header, sizeof_info_header. lia.
Qed.

(** X13. A file cut inside its info header: when the file has at least
    14 and fewer than 54 bytes and starts with the signature,
    [openf_load_bmp] fails with [OPENF_ERR_READ_FAILED]. *)
Theorem load_truncated_info_header (fs : gmap string (list byte))
    (path : string) (data : list byte) :
  fs !! path = Some data →
  (14 ≤ length data < 54)%nat →
  take 2 data = [x42; x4d] →
  openf_load_bmp fs (Some path) true = Fail OPENF_ERR_READ_FAILED.
Proof.
  intros Hfs Hlen Hsig. rewrite (openf_load_bmp_stream fs path data Hfs).
  apply load_bmp_stream_short_info; [done|].
  apply signature_bytes; [lia | done].
Qed.

Lemma load_truncated_info_header_witness :
  openf_load_bmp {[ "c.bmp"%string := take 30 bmp_1x1 ]}
    (Some "c.bmp"%string) true = Fail OPENF_ERR_READ_FAILED.
Proof.
  apply (load_truncated_info_header {[ "c.bmp"%string := take 30 bmp_1x1 ]}
           "c.bmp"%string (take 30 bmp_1x1));
    [reflexivity | vm_compute; lia | reflexivity].
Defined.

Section decoder_rows_short.

Variables (w h rs : Z) (td : bool) (data : list byte).

Hypothesis Hw : 0 < w.
Hypothesis Hrs : 3 * w ≤ rs.
Hypothesis Hh : 0 ≤ h.
Hypothesis Hmax : w * h * 3 < 2 ^ 32.
Hypothesis Hh32 : h < 2 ^ 32.

(** The row loop on a file that ends before the last row does. *)
Lemma load_rows_loop_short :
  ∀ (n : nat) (y : Z) (p : nat) (px : list byte),
    0 ≤ y → y + Z.of_nat n = h → (0 < n)%nat →
    Z.of_nat (length data) < Z.of_nat p + Z.of_nat n * rs →
    Z.of_nat (length px) = w * h * 3 →
    load_rows_loop n y w h rs td {| f_data := data; f_pos := p |} px
    = Fail OPENF_ERR_READ_FAILED.
Proof.
  intros n.
  induction n as [|n IH]; intros y p px Hy Hn Hpos Hdata Hlen; [lia|].
  cbn [load_rows_loop].
  destruct (decide (p + Z.to_nat rs ≤ length data)%nat) as [Hfit | Hcut].
  - destruct (fread_full (Z.to_nat rs) data p) as (row & -> & Hrl & Hrow);
      [done|].
    case_decide as Hd; [lia|]. clear Hd.
    rewrite load_target_y_eq by lia.
    set (ty := if td then y else h - 1 - y).
    assert (0 ≤ ty < h) as Hty by (subst ty; destruct td; lia).
    assert (ty * w + w ≤ h * w) as Hb by nia.
    edestruct (load_row_loop_spec w ty row)
      with (n := Z.to_nat w) (x := 0) (px := px)
      as (px1 & -> & Hl1 & _); [lia | lia | nia | lia | lia | nia |].
    cbn [exec_bind]. unwrap.
    apply IH; [lia | lia | nia | nia | lia].
  - unfold fread. cbn [f_data f_pos].
    rewrite decide_True; [done|].
    rewrite length_take, length_drop. lia.
Qed.

End decoder_rows_short.

(** X14. A file cut inside its pixel data: when the headers pass every
    check and the sizes do not wrap around, but the file ends before the
    last of the rows that start at the declared offset,
    [openf_load_bmp] fails with [OPENF_ERR_READ_FAILED]. *)
Theorem load_truncated_pixels (fs : gmap string (list byte))
    (path : string) (data : list byte) :
  fs !! path = Some data →
  (54 ≤ length data)%nat →
  take 2 data = [x42; x4d] →
  biBitCount (info_header_of data) = 24 →
  biCompression (info_header_of data) = 0 →
  let w := biWidth (info_header_of data) in
  let h := Z.abs (biHeight (info_header_of data)) in
  0 < w → 0 < h → fits_unsigned w h →
  Z.of_nat (length data)
  < bfOffBits (file_header_of data) + h * row_size_of w →
  openf_load_bmp fs (Some path) true = Fail OPENF_ERR_READ_FAILED.
Proof.
  intros Hfs Hlen Hsig Hbc Hco w h Hw Hh [Hf1 Hf2] Hcut.
  rewrite (openf_load_bmp_stream fs path data Hfs).
  apply signature_bytes in Hsig; [|lia].
  pose proof (info_header_ranges data) as [Hwr Hhr].
  pose proof (file_header_off_range data) as Hoff.
  fold w in Hwr.
  assert (h ≤ w * h) as Hwh by nia.
  pose proof (round4_bounds (w * 3)) as Hr4.
  rewrite <- row_size_of_small in Hr4 by lia.
  rewrite load_bmp_stream_headers by done. cbn zeta. fold w.
  rewrite decide_False by (by intros []).
  rewrite decide_False by (intros [|]; done).
  rewrite decide_False by (subst h; lia).
  rewrite decoded_height_abs by done. fold h.
  rewrite (u32_small w) by lia.
  assert (usz (mul32 (mul32 w h) 3) = w * h * 3) as ->
    by (assert (0 ≤ w * h) by nia; by unwrap).
  rewrite (usz_small (row_size_of w)) by lia.
  assert (Z.of_nat (length (malloc (w * h * 3))) = w * h * 3) as Hpx
    by (unfold malloc; rewrite length_replicate; nia).
  assert (Z.of_nat (length data)
          < Z.of_nat (Z.to_nat (bfOffBits (file_header_of data)))
            + Z.of_nat (Z.to_nat h) * row_size_of w) as Hcut'
    by (rewrite !Z2Nat.id by lia; lia).
  rewrite (load_rows_loop_short w h (row_size_of w) _ data);
    [done | lia .. | exact Hcut' | exact Hpx].
Qed.

Lemma load_truncated_pixels_witness :
  openf_load_bmp {[ "c.bmp"%string := take 60 bmp_1x2_bottom_up ]}
    (Some "c.bmp"%string) true = Fail OPENF_ERR_READ_FAILED.
Proof.
  apply (load_truncated_pixels
           {[ "c.bmp"%string := take 60 bmp_1x2_bottom_up ]}
           "c.bmp"%string (take 60 bmp_1x2_bottom_up));
    [reflexivity | vm_compute; lia | reflexivity | reflexivity | reflexivity
    | reflexivity | reflexivity | split; vm_compute; reflexivity
    | vm_compute; reflexivity].
Defined.

(** ** What the decoded image depends on *)

(** Two files the decoder accepts, of the same width and height
    magnitude, decode to the same image when they hold the same bytes for
    every pixel of every canonical row. *)
Lemma load_bmp_stream_agree data1 data2 :
  decodable data1 → decodable data2 →
  biWidth (info_header_of data1) = biWidth (info_header_of data2) →
  Z.abs (biHeight (info_header_of data1))
  = Z.abs (biHeight (info_header_of data2)) →
  let w := biWidth (info_header_of data1) in
  let h := Z.abs (biHeight (info_header_of data1)) in
  let rs := row_size_of w in
  let row (data : list byte) (t : Z) :=
    if bool_decide (biHeight (info_header_of data) < 0) then t
    else h - 1 - t in
  (∀ t x c, 0 ≤ t < h → 0 ≤ x < w → 0 ≤ c < 3 →
     data1 !! Z.to_nat (bfOffBits (file_header_of data1)
                        + row data1 t * rs + x * 3 + c)
     = data2 !! Z.to_nat (bfOffBits (file_header_of data2)
                          + row data2 t * rs + x * 3 + c)) →
  load_bmp_stream (stream_of data1) = load_bmp_stream (stream_of data2).
Proof.
  intros Hd1 Hd2 Ew Eh w h rs row Hsame.
  destruct (load_bmp_stream_pixels data1 Hd1) as (px1 & -> & Hl1 & Hp1).
  destruct (load_bmp_stream_pixels data2 Hd2) as (px2 & -> & Hl2 & Hp2).
  rewrite <- Ew, <- Eh in Hl2, Hp2 |- *. fold w h rs in Hl1, Hp1, Hl2, Hp2.
  destruct Hd1 as (_ & _ & _ & _ & Hw & _). fold w in Hw.
  do 3 f_equal. apply list_eq. intros j.
  destruct (decide (Z.of_nat j < w * h * 3)) as [Hj | Hj];
    [|by rewrite !lookup_ge_None_2 by lia].
  destruct (index_decompose w h (Z.of_nat j))
    as (t & x & c & Ht & Hx & Hc & E); [lia | lia |].
  assert (∀ d, 0 ≤ row d t < h) as Hrow
    by (intros d; subst row; cbv beta;
        destruct (bool_decide (biHeight (info_header_of d) < 0)); lia).
  specialize (Hp1 (row data1 t) x c (Hrow data1) Hx Hc).
  specialize (Hp2 (row data2 t) x c (Hrow data2) Hx Hc).
  specialize (Hsame t x (2 - c) Ht Hx ltac:(lia)).
  subst row. cbv beta in *.
  assert (∀ b : bool, (if b then (if b then t else h - 1 - t)
                       else h - 1 - (if b then t else h - 1 - t)) = t) as Hinv
    by (intros []; lia).
  rewrite Hinv in Hp1, Hp2. rewrite <- E, Nat2Z.id in Hp1, Hp2.
  rewrite Hp1, Hp2.
  etransitivity; [|etransitivity; [exact Hsame|]]; f_equal; lia.
Qed.

Lemma load_bmp_stream_same_rows data1 data2 :
  decodable data1 → decodable data2 →
  biWidth (info_header_of data1) = biWidth (info_header_of data2) →
  biHeight (info_header_of data1) = biHeight (info_header_of data2) →
  let w := biWidth (info_header_of data1) in
  let h := Z.abs (biHeight (info_header_of data1)) in
  let rs := row_size_of w in
  (∀ i k, 0 ≤ i < h → 0 ≤ k < w * 3 →
     data1 !! Z.to_nat (bfOffBits (file_header_of data1) + i * rs + k)
     = data2 !! Z.to_nat (bfOffBits (file_header_of data2) + i * rs + k)) →
  load_bmp_stream (stream_of data1) = load_bmp_stream (stream_of data2).
Proof.
  intros Hd1 Hd2 Ew Eh w h rs Hsame.
  apply load_bmp_stream_agree; [done | done | done | by rewrite Eh |].
  fold w h rs. intros t x c Ht Hx Hc. rewrite <- Eh.
  rewrite <- (Z.add_assoc _ (x * 3) c), <- (Z.add_assoc _ (x * 3) c).
  apply Hsame; [|lia].
  destruct (bool_decide (biHeight (info_header_of data1) < 0)); lia.
Qed.

(** X15. The decoded image is determined by the pixel bytes: two files
    the decoder accepts, with the same width and height fields, that hold
    the same first [width * 3] bytes in each of their rows (each from its
    own declared offset on) decode to the same image; the padding of the
    rows, the other header fields, the bytes before the pixel data and
    those after it have no influence. *)
Theorem load_determined_by_pixels (fs1 fs2 : gmap string (list byte))
    (p1 p2 : string) (data1 data2 : list byte) :
  fs1 !! p1 = Some data1 → fs2 !! p2 = Some data2 →
  decodable data1 → decodable data2 →
  biWidth (info_header_of data1) = biWidth (info_header_of data2) →
  biHeight (info_header_of data1) = biHeight (info_header_of data2) →
  let w := biWidth (info_header_of data1) in
  let h := Z.abs (biHeight (info_header_of data1)) in
  let rs := row_size_of w in
  (∀ i k, 0 ≤ i < h → 0 ≤ k < w * 3 →
     data1 !! Z.to_nat (bfOffBits (file_header_of data1) + i * rs + k)
     = data2 !! Z.to_nat (bfOffBits (file_header_of data2) + i * rs + k)) →
  openf_load_bmp fs1 (Some p1) true = openf_load_bmp fs2 (Some p2) true.
Proof.
  intros Hfs1 Hfs2 Hd1 Hd2 Ew Eh w h rs Hsame.
  rewrite (openf_load_bmp_stream fs1 p1 data1 Hfs1),
    (openf_load_bmp_stream fs2 p2 data2 Hfs2).
  by apply load_bmp_stream_same_rows.
Qed.

(** The file [bmp_1x2_bottom_up] with other padding bytes. *)
Lemma load_determined_by_pixels_witness :
  openf_load_bmp {[ "a.bmp"%string := bmp_1x2_bottom_up ]}
    (Some "a.bmp"%string) true
  = openf_load_bmp
      {[ "b.bmp"%string :=
           bmp_file 54 (info_24bit 1 2)
             [x01; x02; x03; xff; x04; x05; x06; xee] ]}
      (Some "b.bmp"%string) true.
Proof.
  apply (load_determined_by_pixels
           {[ "a.bmp"%string := bmp_1x2_bottom_up ]}
           {[ "b.bmp"%string :=
                bmp_file 54 (info_24bit 1 2)
                  [x01; x02; x03; xff; x04; x05; x06; xee] ]}
           "a.bmp"%string "b.bmp"%string bmp_1x2_bottom_up
           (bmp_file 54 (info_24bit 1 2)
              [x01; x02; x03; xff; x04; x05; x06; xee])).
  - reflexivity.
  - reflexivity.
  - unfold decodable, fits_unsigned. vm_compute.
    repeat split; try done; lia.
  - unfold decodable, fits_unsigned. vm_compute.
    repeat split; try done; lia.
  - reflexivity.
  - reflexivity.
  - intros i k Hi Hk.
    change (Z.abs (biHeight (info_header_of bmp_1x2_bottom_up))) with 2 in Hi.
    change (biWidth (info_header_of bmp_1x2_bottom_up)) with 1 in Hk |- *.
    change (bfOffBits (file_header_of bmp_1x2_bottom_up)) with 54.
    change (bfOffBits (file_header_of (bmp_file 54 (info_24bit 1 2) _)))
      with 54.
    change (row_size_of 1) with 4.
    assert (i = 0 ∨ i = 1) as [-> | ->] by lia;
      (assert (k = 0 ∨ k = 1 ∨ k = 2) as [-> | [-> | ->]] by lia);
      reflexivity.
Defined.

Lemma headers_app data extra :
  (54 ≤ length data)%nat →
  file_header_of (data ++ extra) = file_header_of data ∧
  info_header_of (data ++ extra) = info_header_of data.
Proof.
  intros Hlen. unfold file_header_of, info_header_of,
    sizeof_file_header, sizeof_info_header. split.
  - by rewrite take_app_le by lia.
  - rewrite drop_app_le by lia. f_equal.
    rewrite take_app_le; [done|]. rewrite length_drop. lia.
Qed.

Lemma decodable_app data extra : decodable data → decodable (data ++ extra).
Proof.
  intros (Hlen & Hrest). destruct (headers_app data extra Hlen) as [Ef Ei].
  unfold decodable. rewrite Ef, Ei, length_app.
  destruct Hrest as (? & ? & ? & ? & ? & ? & Hbytes).
  do 7 (split; [done || lia|]). cbv zeta in Hbytes. lia.
Qed.

(** X16. Bytes after the pixel data: for every file the decoder accepts,
    the file followed by any further bytes decodes to the same image. *)
Theorem load_ignores_trailing_bytes (fs1 fs2 : gmap string (list byte))
    (p1 p2 : string) (data extra : list byte) :
  fs1 !! p1 = Some data → fs2 !! p2 = Some (data ++ extra) →
  decodable data →
  openf_load_bmp fs2 (Some p2) true = openf_load_bmp fs1 (Some p1) true.
Proof.
  intros Hfs1 Hfs2 Hdec. symmetry.
  pose proof Hdec as (Hlen & _ & _ & _ & Hw & Hh & [Hf1 _] & Hbytes).
  destruct (headers_app data extra Hlen) as [Ef Ei].
  pose proof (file_header_off_range data) as Hoff.
  pose proof (round4_bounds (biWidth (info_header_of data) * 3)) as Hr4.
  rewrite <- row_size_of_small in Hr4 by lia.
  rewrite (openf_load_bmp_stream fs1 p1 data Hfs1),
    (openf_load_bmp_stream fs2 p2 (data ++ extra) Hfs2).
  apply (load_bmp_stream_same_rows data (data ++ extra));
    [done | by apply decodable_app | by rewrite Ei | by rewrite Ei |].
  intros i k Hi Hk. rewrite Ef. rewrite lookup_app_l; [done|]. nia.
Qed.

Lemma load_ignores_trailing_bytes_witness :
  openf_load_bmp {[ "b.bmp"%string := bmp_1x1 ++ [xaa; xbb] ]}
    (Some "b.bmp"%string) true
  = openf_load_bmp {[ "a.bmp"%string := bmp_1x1 ]}
      (Some "a.bmp"%string) true.
Proof.
  apply (load_ignores_trailing_bytes
           {[ "a.bmp"%string := bmp_1x1 ]}
           {[ "b.bmp"%string := bmp_1x1 ++ [xaa; xbb] ]}
           "a.bmp"%string "b.bmp"%string bmp_1x1 [xaa; xbb]);
    [reflexivity | reflexivity |].
  unfold decodable, fits_unsigned. vm_compute.
  repeat split; try done; lia.
Defined.

(** X17. Orientation: a file stored bottom-up and a file stored top-down
    (the height field of one is the negation of that of the other, the
    widths are equal) decode to the same image when the [i]-th stored row
    of one holds the pixel bytes of the row [height - 1 - i] of the
    other. *)
Theorem load_orientation (fs1 fs2 : gmap string (list byte))
    (p1 p2 : string) (data1 data2 : list byte) :
  fs1 !! p1 = Some data1 → fs2 !! p2 = Some data2 →
  decodable data1 → decodable data2 →
  biWidth (info_header_of data1) = biWidth (info_header_of data2) →
  biHeight (info_header_of data2) = - biHeight (info_header_of data1) →
  let w := biWidth (info_header_of data1) in
  let h := Z.abs (biHeight (info_header_of data1)) in
  let rs := row_size_of w in
  (∀ i k, 0 ≤ i < h → 0 ≤ k < w * 3 →
     data1 !! Z.to_nat (bfOffBits (file_header_of data1) + i * rs + k)
     = data2 !! Z.to_nat (bfOffBits (file_header_of data2)
                          + (h - 1 - i) * rs + k)) →
  openf_load_bmp fs1 (Some p1) true = openf_load_bmp fs2 (Some p2) true.
Proof.
  intros Hfs1 Hfs2 Hd1 Hd2 Ew Eh w h rs Hsame.
  rewrite (openf_load_bmp_stream fs1 p1 data1 Hfs1),
    (openf_load_bmp_stream fs2 p2 data2 Hfs2).
  pose proof Hd1 as (_ & _ & _ & _ & _ & Hh1 & _).
  apply load_bmp_stream_agree; [done | done | done | rewrite Eh; lia |].
  fold w h rs. intros t x c Ht Hx Hc. rewrite Eh.
  rewrite <- (Z.add_assoc _ (x * 3) c), <- (Z.add_assoc _ (x * 3) c).
  destruct (decide (biHeight (info_header_of data1) < 0)) as [Hneg | Hpos].
  - rewrite bool_decide_eq_true_2 by done.
    rewrite bool_decide_eq_false_2 by lia.
    apply Hsame; lia.
  - rewrite bool_decide_eq_false_2 by done.
    rewrite bool_decide_eq_true_2 by lia.
    rewrite (Hsame (h - 1 - t) (x * 3 + c)) by lia. do 2 f_equal. lia.
Qed.

Lemma load_orientation_witness :
  openf_load_bmp {[ "a.bmp"%string := bmp_1x2_bottom_up ]}
    (Some "a.bmp"%string) true
  = openf_load_bmp
      {[ "b.bmp"%string :=
           bmp_file 54 (info_24bit 1 (-2))
             [x04; x05; x06; x00; x01; x02; x03; x00] ]}
      (Some "b.bmp"%string) true.
Proof.
  apply (load_orientation
           {[ "a.bmp"%string := bmp_1x2_bottom_up ]}
           {[ "b.bmp"%string :=
                bmp_file 54 (info_24bit 1 (-2))
                  [x04; x05; x06; x00; x01; x02; x03; x00] ]}
           "a.bmp"%string "b.bmp"%string bmp_1x2_bottom_up
           (bmp_file 54 (info_24bit 1 (-2))
              [x04; x05; x06; x00; x01; x02; x03; x00])).
  - reflexivity.
  - reflexivity.
  - unfold decodable, fits_unsigned. vm_compute.
    repeat split; try done; lia.
  - unfold decodable, fits_unsigned. vm_compute.
    repeat split; try done; lia.
  - reflexivity.
  - reflexivity.
  - intros i k Hi Hk.
    change (Z.abs (biHeight (info_header_of bmp_1x2_bottom_up))) with 2
      in Hi |- *.
    change (biWidth (info_header_of bmp_1x2_bottom_up)) with 1 in Hk |- *.
    change (bfOffBits (file_header_of bmp_1x2_bottom_up)) with 54.
    change (bfOffBits (file_header_of (bmp_file 54 (info_24bit 1 (-2)) _)))
      with 54.
    change (row_size_of 1) with 4.
    assert (i = 0 ∨ i = 1) as [-> | ->] by lia;
      (assert (k = 0 ∨ k = 1 ∨ k = 2) as [-> | [-> | ->]] by lia);
      reflexivity.
Defined.

(** ** The image the decoder returns *)

Lemma load_row_loop_length n :
  ∀ x w ty row px px',
    load_row_loop n x w ty row px = Ret px' → length px' = length px.
Proof.
  induction n as [|n IH]; intros x w ty row px px'; [by intros [= <-]|].
  cbn [load_row_loop]. unfold load8, store8.
  repeat (first [ destruct (row !! _) | case_decide ];
          cbn [exec_bind]; try done).
  intros Hr%IH. by rewrite Hr, !length_insert.
Qed.

Lemma load_rows_loop_length n :
  ∀ y w h rs td f px px',
    load_rows_loop n y w h rs td f px = Ret px' → length px' = length px.
Proof.
  induction n as [|n IH]; intros y w h rs td f px px'; [by intros [= <-]|].
  cbn [load_rows_loop]. unfold fread. case_decide; [done|].
  destruct (load_row_loop _ _ _ _ _ _) as [px1| |] eqn:E; cbn [exec_bind];
    try done.
  intros Hr%IH. apply load_row_loop_length in E. congruence.
Qed.

(** X18. What every returned image is like: whenever [openf_load_bmp]
    returns an image, on any file, its width is the stored width and is in
    [1, 2^31 - 1], its height is the magnitude of the stored height and is
    in [1, 2^31], and its pixel buffer is not NULL and has
    [width * height * 3] bytes, the product taken on [unsigned int]. *)
Theorem load_returned_image (fs : gmap string (list byte)) (path : string)
    (data : list byte) (img : OpenF_Image) :
  fs !! path = Some data →
  openf_load_bmp fs (Some path) true = Ret img →
  width img = biWidth (info_header_of data) ∧
  height img = Z.abs (biHeight (info_header_of data)) ∧
  0 < width img < 2 ^ 31 ∧ 0 < height img ≤ 2 ^ 31 ∧
  ∃ px : list byte,
    pixels img = Some px ∧
    Z.of_nat (length px) = (width img * height img * 3) mod 2 ^ 32.
Proof.
  intros Hfs. rewrite (openf_load_bmp_stream fs path data Hfs).
  pose proof (info_header_ranges data) as [Hwr Hhr].
  destruct (decide (length data < 14)%nat) as [Hs | Hs];
    [by rewrite load_bmp_stream_short|].
  destruct (decide (bfType (file_header_of data) = 0x4D42)) as [Hsig | Hsig];
    [|by rewrite load_bmp_stream_signature by (done || lia)].
  destruct (decide (length data < 54)%nat) as [Hi | Hi];
    [by rewrite load_bmp_stream_short_info by (done || lia)|].
  rewrite load_bmp_stream_headers by lia. cbn zeta.
  repeat (case_decide; [done|]).
  rewrite decoded_height_abs by done.
  rewrite (u32_small (biWidth (info_header_of data))) by lia.
  generalize dependent (biWidth (info_header_of data)). intros w Hwr Hw.
  generalize dependent (biHeight (info_header_of data)). intros bh Hhr Hbh.
  destruct (load_rows_loop _ _ _ _ _ _ _ _) as [px| |] eqn:E;
    cbn [exec_bind]; try done.
  intros [= <-]. cbn [width height pixels].
  split; [done|]. split; [done|]. split; [lia|]. split; [lia|].
  exists px. split; [done|]. apply load_rows_loop_length in E.
  rewrite E. unfold malloc, mul32. rewrite length_replicate.
  pose proof (u32_range (u32 (w * Z.abs bh) * 3)).
  rewrite usz_small by lia. rewrite Z2Nat.id by lia.
  unfold u32. rewrite Z.mul_mod_idemp_l by lia. done.
Qed.

Lemma load_returned_image_witness :
  width {| width := 1; height := 1; pixels := Some [x30; x20; x10] |}
  = biWidth (info_header_of bmp_1x1).
Proof.
  apply (load_returned_image {[ "p.bmp"%string := bmp_1x1 ]} "p.bmp"%string
           bmp_1x1 {| width := 1; height := 1;
                      pixels := Some [x30; x20; x10] |});
    [reflexivity | vm_compute; reflexivity].
Defined.

(** ** Composition of the encoder, the decoder and the file operations *)

(** X19. Round trip beyond 4096: for every image whose width and height
    are positive and below 2^31, whose sizes [width * 3 + 3] and
    [width * height * 3] fit [unsigned int] and whose buffer has exactly
    [width * height * 3] bytes, [openf_save_bmp] succeeds and
    [openf_load_bmp] on the file it wrote returns the same image. *)
Theorem save_load_roundtrip_fits (fs : gmap string (list byte))
    (path : string) (w h : Z) (px : list byte) :
  0 < w < 2 ^ 31 → 0 < h < 2 ^ 31 → fits_unsigned w h →
  Z.of_nat (length px) = w * h * 3 →
  let image := {| width := w; height := h; pixels := Some px |} in
  ∃ out : list byte,
    openf_save_bmp fs (Some path) (Some image) = Ret (<[path := out]> fs) ∧
    openf_load_bmp (<[path := out]> fs) (Some path) true = Ret image.
Proof.
  intros Hw Hh Hfit Hlen image.
  destruct (save_load_stream w h px Hw Hh Hfit Hlen) as (out & Hsave & Hload).
  exists out. split; [by apply save_bmp_stream_openf|].
  rewrite (openf_load_bmp_stream _ path out) by apply lookup_insert_eq.
  exact Hload.
Qed.

Lemma save_load_roundtrip_fits_witness :
  ∃ out : list byte,
    openf_save_bmp ∅ (Some "w.bmp"%string)
      (Some {| width := 2; height := 1;
               pixels := Some [x01; x02; x03; x04; x05; x06] |})
    = Ret (<["w.bmp"%string := out]> ∅) ∧
    openf_load_bmp (<["w.bmp"%string := out]> ∅) (Some "w.bmp"%string) true
    = Ret {| width := 2; height := 1;
             pixels := Some [x01; x02; x03; x04; x05; x06] |}.
Proof.
  apply (save_load_roundtrip_fits ∅ "w.bmp"%string 2 1
           [x01; x02; x03; x04; x05; x06]);
    [lia | lia | split; lia | reflexivity].
Defined.

(** X20. Decoding, encoding and decoding again: for every file the
    decoder accepts, the decoded image can be saved, to any path of any
    file system, and the saved file decodes to the same image, whatever the
    row order, the offset and the padding of the first file were. *)
Theorem load_save_load (fs fs2 : gmap string (list byte)) (p q : string)
    (data : list byte) :
  fs !! p = Some data → decodable data →
  ∃ (img : OpenF_Image) (out : list byte),
    openf_load_bmp fs (Some p) true = Ret img ∧
    openf_save_bmp fs2 (Some q) (Some img) = Ret (<[q := out]> fs2) ∧
    openf_load_bmp (<[q := out]> fs2) (Some q) true = Ret img.
Proof.
  intros Hfs Hdec.
  destruct (load_bmp_stream_pixels data Hdec) as (px & Hload & Hlen & _).
  pose proof Hdec as (_ & _ & _ & _ & Hw & Hh & Hfit & _).
  pose proof (info_header_ranges data) as [Hwr Hhr].
  pose proof Hfit as [_ Hf2].
  set (w := biWidth (info_header_of data)) in *.
  set (h := Z.abs (biHeight (info_header_of data))) in *.
  assert (0 < h) as Hhpos by (subst h; lia).
  assert (h < 2 ^ 31) as Hh31 by nia.
  destruct (save_load_stream w h px) as (out & Hsave & Hback);
    [lia | lia | done | done |].
  exists {| width := w; height := h; pixels := Some px |}, out.
  split; [by rewrite (openf_load_bmp_stream fs p data Hfs)|].
  split; [by apply save_bmp_stream_openf|].
  by rewrite (openf_load_bmp_stream _ q out) by apply lookup_insert_eq.
Qed.

Lemma load_save_load_witness :
  ∃ (img : OpenF_Image) (out : list byte),
    openf_load_bmp {[ "t.bmp"%string := bmp_1x2_top_down ]}
      (Some "t.bmp"%string) true = Ret img ∧
    openf_save_bmp ∅ (Some "u.bmp"%string) (Some img)
    = Ret (<["u.bmp"%string := out]> ∅) ∧
    openf_load_bmp (<["u.bmp"%string := out]> ∅) (Some "u.bmp"%string) true
    = Ret img.
Proof.
  apply (load_save_load {[ "t.bmp"%string := bmp_1x2_top_down ]} ∅
           "t.bmp"%string "u.bmp"%string bmp_1x2_top_down);
    [reflexivity|].
  unfold decodable, fits_unsigned. vm_compute.
  repeat split; try done; lia.
Defined.

(** X21. A copied image file: after [openf_save_bmp] wrote an image
    (positive dimensions below 2^31, sizes that fit [unsigned int], a
    buffer of exactly [width * height * 3] bytes) to a path, [openf_copy_file] to another path (given
    steps for every byte) succeeds, and [openf_load_bmp] on the copy
    returns the image; [openf_get_size] on the copy returns
    54 + row_size * height. *)
Theorem save_copy_load (fuel : nat) (fs : gmap string (list byte))
    (p q : string) (w h : Z) (px : list byte) :
  p ≠ q →
  0 < w < 2 ^ 31 → 0 < h < 2 ^ 31 → fits_unsigned w h →
  Z.of_nat (length px) = w * h * 3 →
  (54 + Z.to_nat (row_size_of w * h) < fuel)%nat →
  let image := {| width := w; height := h; pixels := Some px |} in
  ∃ fs1 fs2 : gmap string (list byte),
    openf_save_bmp fs (Some p) (Some image) = Ret fs1 ∧
    openf_copy_file fuel fs1 (Some p) (Some q) = Returned OPENF_OK fs2 ∧
    openf_load_bmp fs2 (Some q) true = Ret image ∧
    openf_get_size fs2 (Some q) true = Ret (54 + row_size_of w * h).
Proof.
  intros Hpq Hw Hh Hfit Hlen Hfuel image.
  destruct (save_bmp_stream_spec w h px) as (rows & Hsave & Hl & _);
    [lia | lia | done | lia |].
  destruct (save_load_stream w h px Hw Hh Hfit Hlen) as (out & Hsave' & Hload).
  rewrite Hsave in Hsave'. injection Hsave' as <-.
  set (out := write_file_header (save_file_header w h) ++
              write_info_header (save_info_header w h) ++ rows) in *.
  assert (Z.of_nat (length out) = 54 + row_size_of w * h) as Hlo.
  { subst out. rewrite !length_app, length_write_file_header,
      length_write_info_header. lia. }
  pose proof (row_size_of_range w) as Hrs.
  assert (0 ≤ row_size_of w * h) by nia.
  pose proof (openf_copy_file_ok fuel (<[p := out]> fs) p q out Hpq
                (lookup_insert_eq _ _ _) ltac:(lia)) as Hcopy.
  assert ((<[q := out]> (<[p := out]> fs)) !! q = Some out) as Hq
    by apply lookup_insert_eq.
  exists (<[p := out]> fs), (<[q := out]> (<[p := out]> fs)).
  split; [by apply save_bmp_stream_openf|]. split; [done|].
  split; [by rewrite (openf_load_bmp_stream _ q out Hq)|].
  unfold openf_get_size, fopen_rb. rewrite Hq. cbn [f_data].
  rewrite Hlo. f_equal. apply usz_small. nia.
Qed.

Lemma save_copy_load_witness :
  ∃ fs1 fs2 : gmap string (list byte),
    openf_save_bmp ∅ (Some "p.bmp"%string)
      (Some {| width := 1; height := 1; pixels := Some [x30; x20; x10] |})
    = Ret fs1 ∧
    openf_copy_file 100 fs1 (Some "p.bmp"%string) (Some "q.bmp"%string)
    = Returned OPENF_OK fs2 ∧
    openf_load_bmp fs2 (Some "q.bmp"%string) true
    = Ret {| width := 1; height := 1; pixels := Some [x30; x20; x10] |} ∧
    openf_get_size fs2 (Some "q.bmp"%string) true
    = Ret (54 + row_size_of 1 * 1).
Proof.
  apply (save_copy_load 100 ∅ "p.bmp"%string "q.bmp"%string 1 1
           [x30; x20; x10]);
    [discriminate | lia | lia | split; lia | reflexivity | vm_compute; lia].
Defined.

(** ** The pixel buffer of the encoder *)

(** The inner loop of the encoder on a buffer that ends inside the row
    it copies. *)
Lemma save_row_loop_short (w sy : Z) (px : list byte) :
  0 ≤ sy → (sy * w + w) * 3 ≤ 2 ^ 32 →
  Z.of_nat (length px) < (sy * w + w) * 3 →
  ∀ (n : nat) (x : Z) (row : list byte),
    0 ≤ x → x + Z.of_nat n = w → (0 < n)%nat →
    3 * w ≤ Z.of_nat (length row) →
    save_row_loop n x w sy px row = Undef.
Proof.
  intros Hsy Hmax Hshort n.
  induction n as [|n IH]; intros x row Hx Hn Hpos Hlen; [lia|].
  assert (0 ≤ sy * w) as Hp by nia.
  cbn [save_row_loop]. unwrap.
  destruct (decide ((sy * w + x) * 3 + 2 < Z.of_nat (length px)))
    as [Hin | Hout].
  - destruct (load8_in px ((sy * w + x) * 3 + 2)) as (b2 & _ & ->); [lia|].
    cbn [exec_bind]. rewrite store8_in by lia. cbn [exec_bind].
    destruct (load8_in px ((sy * w + x) * 3 + 1)) as (b1 & _ & ->); [lia|].
    cbn [exec_bind]. rewrite store8_in by (rewrite !length_insert; lia).
    cbn [exec_bind].
    destruct (load8_in px ((sy * w + x) * 3 + 0)) as (b0 & _ & ->); [lia|].
    cbn [exec_bind]. rewrite store8_in by (rewrite !length_insert; lia).
    cbn [exec_bind].
    apply IH; [lia | lia | lia | rewrite !length_insert; lia].
  - unfold load8 at 1. rewrite lookup_ge_None_2 by lia. done.
Qed.

(** X22. The encoder trusts the size of the buffer: for an image of
    positive dimensions whose sizes fit [unsigned int] but whose pixel
    buffer has fewer than [width * height * 3] bytes, [openf_save_bmp]
    reads past the end of the buffer, already in the first row it writes
    (the last row of the image). *)
Theorem save_short_buffer (fs : gmap string (list byte)) (path : string)
    (w h : Z) (px : list byte) :
  0 < w → 0 < h < 2 ^ 32 → fits_unsigned w h →
  Z.of_nat (length px) < w * h * 3 →
  openf_save_bmp fs (Some path)
    (Some {| width := w; height := h; pixels := Some px |}) = Undef.
Proof.
  intros Hw Hh [Hf1 Hf2] Hshort.
  pose proof (round4_bounds (w * 3)) as Hr4.
  rewrite <- row_size_of_small in Hr4 by lia.
  unfold openf_save_bmp. cbn [pixels width height].
  unfold save_bmp_stream.
  destruct (Z.to_nat h) as [|n] eqn:En; [lia|].
  cbn [save_rows_loop]. unwrap.
  rewrite (save_row_loop_short w (h - 1 - 0) px); [done | lia | nia | nia | ..].
  - lia.
  - lia.
  - lia.
  - rewrite length_replicate. lia.
Qed.

Lemma save_short_buffer_witness :
  openf_save_bmp ∅ (Some "s.bmp"%string)
    (Some {| width := 1; height := 2; pixels := Some [x01; x02; x03] |})
  = Undef.
Proof.
  apply (save_short_buffer ∅ "s.bmp"%string 1 2 [x01; x02; x03]);
    [lia | lia | split; lia | cbn; lia].
Defined.
